(** * WIZUALL compiler: symbol table and type-directed code generator

    A shallow embedding of [symtab.c] and [codegen.c] of the WIZUALL
    compiler, followed by the properties of the semantic backend that the
    specification states about them.

    Conventions of the embedding.
    - A C string is a [string]; a possibly-NULL pointer is an [option].
    - The singly linked list of [Symbol] cells hanging from
      [symbol_list_head] is a [list Symbol], head first.  A [Symbol *] is
      the allocation rank of the cell (the number of cells behind it in the
      chain), which stays valid when later cells are pushed at the head.
    - [exit], a failed [assert] and undefined behaviour (a dangling
      pointer, reading past a buffer) end the run: the functions return
      [None] there.  Running out of memory is not modelled: [malloc],
      [calloc] and [strdup] succeed.
    - [free] of transient text has no counterpart: strings are values. *)

From Stdlib Require Import ZArith List String Ascii Bool Lia PeanoNat.
From Stdlib Require Import DecimalString.
From Stdlib Require Import Floats.PrimFloat Floats.SpecFloat Floats.FloatOps.
Import ListNotations.

Local Open Scope list_scope.
Local Open Scope string_scope.
Local Open Scope nat_scope.

(* ------------------------------------------------------------------ *)
(** * The pieces of the C library the sources call *)
(* ------------------------------------------------------------------ *)

Module Libc.

(** The characters a Rocq literal cannot hold directly. *)
Definition dq : string := String (ascii_of_nat 34) EmptyString.
Definition nl : string := String (ascii_of_nat 10) EmptyString.

(** [%d] and [%ld]: a signed decimal. *)
Definition fmt_d (z : Z) : string := NilZero.string_of_int (Z.to_int z).

(** [% i] (space flag): a blank stands where the sign of a non-negative
    number would. *)
Definition fmt_space_d (z : Z) : string :=
  if (z <? 0)%Z then fmt_d z else " " ++ fmt_d z.

(** [%c]. *)
Definition fmt_c (c : ascii) : string := String c EmptyString.

Definition digit (z : Z) : string := fmt_d (z mod 10).

(** Six decimals, zero padded. *)
Definition pad6 (z : Z) : string :=
  digit (z / 100000) ++ digit (z / 10000) ++ digit (z / 1000) ++
  digit (z / 100) ++ digit (z / 10) ++ digit z.

(** [num / den] rounded to the nearest integer, ties to even
    ([0 <= num], [0 < den]). *)
Definition round_half_even (num den : Z) : Z :=
  let q := (num / den)%Z in
  let r := (num mod den)%Z in
  if (2 * r <? den)%Z then q
  else if (den <? 2 * r)%Z then (q + 1)%Z
  else if Z.even q then q else (q + 1)%Z.

Definition sign (s : bool) : string := if s then "-" else EmptyString.

(** [%f] of a double: the exact binary value rounded to six decimals in
    the default rounding mode.  Rocq's floats have one NaN, so the sign
    glibc prints before [nan] is not represented. *)
Definition fmt_f (x : float) : string :=
  match Prim2SF x with
  | S754_zero s => sign s ++ "0.000000"
  | S754_infinity s => sign s ++ "inf"
  | S754_nan => "nan"
  | S754_finite s m e =>
      let n := (Zpos m * 1000000)%Z in
      let scaled :=
        if (0 <=? e)%Z then (n * 2 ^ e)%Z
        else round_half_even n (2 ^ (- e)) in
      sign s ++ fmt_d (scaled / 1000000) ++ "." ++ pad6 (scaled mod 1000000)
  end.

(** [snprintf(buf, size, ...)]: the rendered text cut to [size - 1]
    characters. *)
Definition snprintf (size : nat) (rendered : string) : string :=
  substring 0 (size - 1) rendered.

(** [strncat(dst, src, n)]: at most [n] characters of [src] are
    appended. *)
Definition strncat (dst src : string) (n : nat) : string :=
  dst ++ substring 0 n src.

(** [strcmp(a, b) == 0]. *)
Definition streq (a b : string) : bool := String.eqb a b.

(** What a run cannot read off its inputs: whether [fopen] succeeds, the
    text [perror] appends for [errno], and the values [vfprintf] picks up
    for a conversion that has no argument (read in order, by index). *)
Record Env := {
  fopen_ok : bool;
  errno_text : string;
  va_arg : nat -> Z
}.

End Libc.

(* ------------------------------------------------------------------ *)
(** * symtab.h, symtab.c *)
(* ------------------------------------------------------------------ *)

Module Symtab.

Inductive SymbolType :=
| SYMBOL_TYPE_UNDEFINED
| SYMBOL_TYPE_SCALAR
| SYMBOL_TYPE_VECTOR.

Definition SymbolType_eqb (a b : SymbolType) : bool :=
  match a, b with
  | SYMBOL_TYPE_UNDEFINED, SYMBOL_TYPE_UNDEFINED
  | SYMBOL_TYPE_SCALAR, SYMBOL_TYPE_SCALAR
  | SYMBOL_TYPE_VECTOR, SYMBOL_TYPE_VECTOR => true
  | _, _ => false
  end.

(** The enumerator's value, as [%d] prints it. *)
Definition SymbolType_int (t : SymbolType) : Z :=
  match t with
  | SYMBOL_TYPE_UNDEFINED => 0
  | SYMBOL_TYPE_SCALAR => 1
  | SYMBOL_TYPE_VECTOR => 2
  end.

(** The [value] union: the scalar, or the vector's [data] pointer (NULL
    or the owned buffer) together with its [size] field. *)
Inductive SymbolValue :=
| scalar_value (v : float)
| vector_value (data : option (list float)) (size : nat).

Record Symbol := {
  name : string;
  type : SymbolType;
  value : SymbolValue
}.

(** The chain from [symbol_list_head]; [next] is the tail of the list. *)
Definition table := list Symbol.

(** A non-NULL [Symbol *]. *)
Definition handle := nat.

(** [*sym]: the cell of rank [sym], if the chain holds one. *)
Definition deref (tbl : table) (sym : handle) : option Symbol :=
  if sym <? List.length tbl then nth_error tbl (List.length tbl - 1 - sym) else None.

(** The chain with the cell of rank [sym] overwritten. *)
Fixpoint store (tbl : table) (sym : handle) (s : Symbol) : table :=
  match tbl with
  | [] => []
  | c :: rest =>
      if sym =? List.length rest then s :: rest else c :: store rest sym s
  end.

Definition free_symbol_value_data (sym : Symbol) : Symbol :=
  match type sym, value sym with
  | SYMBOL_TYPE_VECTOR, vector_value (Some _) _ =>
      {| name := name sym; type := type sym;
         value := vector_value None 0 |}
  | _, _ => sym
  end.

(** The scan of [symbol_lookup], from the cell [current]. *)
Fixpoint lookup_from (current : table) (nm : string) : option handle :=
  match current with
  | [] => None
  | c :: next =>
      if Libc.streq (name c) nm then Some (List.length next)
      else lookup_from next nm
  end.

Definition symbol_lookup (nm : option string) (tbl : table)
  : option handle :=
  match nm with
  | None => None
  | Some n => lookup_from tbl n
  end.

(** [None]: the process exits (NULL name). *)
Definition symbol_insert (nm : option string) (tbl : table)
  : option (handle * table) :=
  match nm with
  | None => None
  | Some n =>
      match symbol_lookup (Some n) tbl with
      | Some sym => Some (sym, tbl)
      | None =>
          let sym := {| name := n; type := SYMBOL_TYPE_SCALAR;
                        value := scalar_value 0%float |} in
          Some (List.length tbl, sym :: tbl)
      end
  end.

(** [None]: [sym] points at no cell of the table. *)
Definition symbol_set_scalar (sym : option handle) (val : float)
    (tbl : table) : option table :=
  match sym with
  | None => Some tbl
  | Some h =>
      match deref tbl h with
      | None => None
      | Some c =>
          let c := free_symbol_value_data c in
          Some (store tbl h {| name := name c;
                               type := SYMBOL_TYPE_SCALAR;
                               value := scalar_value val |})
      end
  end.

(** [data] is NULL or the buffer it points at.  [None]: [sym] points at
    no cell, or [memcpy] would read past the end of [data]. *)
Definition symbol_set_vector (sym : option handle)
    (data : option (list float)) (size : nat) (tbl : table)
  : option table :=
  match sym with
  | None => Some tbl
  | Some h =>
      match deref tbl h with
      | None => None
      | Some c =>
          let c := free_symbol_value_data c in
          let set d :=
            Some (store tbl h {| name := name c;
                                 type := SYMBOL_TYPE_VECTOR;
                                 value := vector_value d size |}) in
          match size, data with
          | O, _ | _, None => set None
          | _, Some buf =>
              if size <=? List.length buf then set (Some (firstn size buf))
              else None
          end
      end
  end.

Definition symbol_table_destroy (tbl : table) : table := [].

(** Modelled from the spec: [symbol_get_list_head] is declared in
    [symtab.h] and called by the generator, and [symtab.c] does not
    define it.  The header says it returns the head of the symbol list
    for iteration, the specification that the enumeration runs from the
    most recent entry to the oldest. *)
Definition symbol_get_list_head (tbl : table) : list Symbol := tbl.

(** ** Vocabulary of the properties *)

(** The entries of a table that carry the name [nm]. *)
Definition entries_named (nm : string) (tbl : table) : nat :=
  List.length (filter (fun c => Libc.streq (name c) nm) tbl).

(** The invariant of a table grown by [symbol_insert]: one cell per name. *)
Definition distinct_names (tbl : table) : Prop := NoDup (map name tbl).

Definition fresh_symbol (nm : string) : Symbol :=
  {| name := nm; type := SYMBOL_TYPE_SCALAR; value := scalar_value 0%float |}.

End Symtab.

(* ------------------------------------------------------------------ *)
(** * ast.h *)
(* ------------------------------------------------------------------ *)

Module Ast.

(** An [ASTNode]: the [type] tag with the arm of the [data] union it
    selects.  A child pointer may be NULL; a [NodeList] is the list of its
    [count] items; a [struct Symbol *] is NULL or a handle into the
    symbol table. *)
#[warnings="-register-all"] Inductive ASTNode :=
| NODE_TYPE_UNKNOWN
| NODE_TYPE_NUMBER (number_value : float)
| NODE_TYPE_VECTOR (vector_elements : list (option ASTNode))
| NODE_TYPE_IDENTIFIER (identifier_symbol : option Symtab.handle)
| NODE_TYPE_BINARY_OP (op : ascii) (left right : option ASTNode)
| NODE_TYPE_UNARY_OP (op : ascii) (operand : option ASTNode)
| NODE_TYPE_ASSIGNMENT (target_symbol : option Symtab.handle)
    (expression : option ASTNode)
| NODE_TYPE_STATEMENT_LIST (statement_list : list (option ASTNode))
| NODE_TYPE_IF (condition if_branch else_branch : option ASTNode)
| NODE_TYPE_WHILE (condition loop_body : option ASTNode)
| NODE_TYPE_FUNC_CALL (function_symbol : option Symtab.handle)
    (arguments : list (option ASTNode)).

(** The value of [node->type], as [%d] prints it. *)
Definition NodeType_int (node : ASTNode) : Z :=
  match node with
  | NODE_TYPE_UNKNOWN => 0
  | NODE_TYPE_NUMBER _ => 1
  | NODE_TYPE_VECTOR _ => 2
  | NODE_TYPE_IDENTIFIER _ => 3
  | NODE_TYPE_BINARY_OP _ _ _ => 4
  | NODE_TYPE_UNARY_OP _ _ => 5
  | NODE_TYPE_ASSIGNMENT _ _ => 6
  | NODE_TYPE_STATEMENT_LIST _ => 7
  | NODE_TYPE_IF _ _ _ => 8
  | NODE_TYPE_WHILE _ _ => 9
  | NODE_TYPE_FUNC_CALL _ _ => 10
  end.

(** Structural induction through the child pointers and the node lists. *)
Section Induction.

Variable P : ASTNode -> Prop.

(** [P] at a child pointer: nothing to show at NULL. *)
Definition at_child (child : option ASTNode) : Prop :=
  match child with
  | None => True
  | Some n => P n
  end.

Hypothesis unknown_case : P NODE_TYPE_UNKNOWN.
Hypothesis number_case : forall v, P (NODE_TYPE_NUMBER v).
Hypothesis vector_case :
  forall items, Forall at_child items -> P (NODE_TYPE_VECTOR items).
Hypothesis identifier_case : forall sym, P (NODE_TYPE_IDENTIFIER sym).
Hypothesis binary_op_case :
  forall op l r, at_child l -> at_child r -> P (NODE_TYPE_BINARY_OP op l r).
Hypothesis unary_op_case :
  forall op x, at_child x -> P (NODE_TYPE_UNARY_OP op x).
Hypothesis assignment_case :
  forall sym e, at_child e -> P (NODE_TYPE_ASSIGNMENT sym e).
Hypothesis statement_list_case :
  forall items, Forall at_child items -> P (NODE_TYPE_STATEMENT_LIST items).
Hypothesis if_case :
  forall c t e, at_child c -> at_child t -> at_child e ->
                P (NODE_TYPE_IF c t e).
Hypothesis while_case :
  forall c b, at_child c -> at_child b -> P (NODE_TYPE_WHILE c b).
Hypothesis func_call_case :
  forall sym items, Forall at_child items -> P (NODE_TYPE_FUNC_CALL sym items).

Fixpoint ASTNode_induction (node : ASTNode) : P node :=
  let child (c : option ASTNode) : at_child c :=
    match c with
    | None => I
    | Some n => ASTNode_induction n
    end in
  let children :=
    fix children (items : list (option ASTNode)) : Forall at_child items :=
      match items with
      | [] => Forall_nil _
      | c :: rest => Forall_cons c (child c) (children rest)
      end in
  match node with
  | NODE_TYPE_UNKNOWN => unknown_case
  | NODE_TYPE_NUMBER v => number_case v
  | NODE_TYPE_VECTOR items => vector_case items (children items)
  | NODE_TYPE_IDENTIFIER sym => identifier_case sym
  | NODE_TYPE_BINARY_OP op l r => binary_op_case op l r (child l) (child r)
  | NODE_TYPE_UNARY_OP op x => unary_op_case op x (child x)
  | NODE_TYPE_ASSIGNMENT sym e => assignment_case sym e (child e)
  | NODE_TYPE_STATEMENT_LIST items =>
      statement_list_case items (children items)
  | NODE_TYPE_IF c t e => if_case c t e (child c) (child t) (child e)
  | NODE_TYPE_WHILE c b => while_case c b (child c) (child b)
  | NODE_TYPE_FUNC_CALL sym items => func_call_case sym items (children items)
  end.

End Induction.

End Ast.

(* ------------------------------------------------------------------ *)
(** * codegen.c *)
(* ------------------------------------------------------------------ *)

Module Codegen.

Import Libc.
Import Ast.

Abbreviation SCALAR := Symtab.SYMBOL_TYPE_SCALAR.
Abbreviation VECTOR := Symtab.SYMBOL_TYPE_VECTOR.

Record ExprResult := {
  code : string;
  type : Symtab.SymbolType;
  is_temporary : bool
}.

(** The statics of the file and the two streams of the process.  An open
    [output_file] holds what [emit] wrote so far, one entry per call. *)
Record State := {
  output_file : option (list string);
  temp_var_counter : Z;
  codegen_error_occurred : bool;
  stderr : list string;
  stdout : list string
}.

(** A computation over the statics; [None] when the process is ended. *)
Definition M (A : Type) : Type := State -> option (A * State).

Definition ret {A} (a : A) : M A := fun st => Some (a, st).

Definition bind {A B} (m : M A) (k : A -> M B) : M B :=
  fun st =>
    match m st with
    | None => None
    | Some (a, st') => k a st'
    end.

Notation "x <- m ;; k" := (bind m (fun x => k))
  (at level 61, m at next level, right associativity).
Notation "m ;; k" := (bind m (fun _ => k))
  (at level 61, right associativity).

Definition fprintf_stderr (text : string) : M unit :=
  fun st =>
    Some (tt, {| output_file := output_file st;
                 temp_var_counter := temp_var_counter st;
                 codegen_error_occurred := codegen_error_occurred st;
                 stderr := (stderr st ++ [text])%list;
                 stdout := stdout st |}).

Definition printf (text : string) : M unit :=
  fun st =>
    Some (tt, {| output_file := output_file st;
                 temp_var_counter := temp_var_counter st;
                 codegen_error_occurred := codegen_error_occurred st;
                 stderr := stderr st;
                 stdout := (stdout st ++ [text])%list |}).

Definition set_error_flag (b : bool) : M unit :=
  fun st =>
    Some (tt, {| output_file := output_file st;
                 temp_var_counter := temp_var_counter st;
                 codegen_error_occurred := b;
                 stderr := stderr st;
                 stdout := stdout st |}).

Definition set_counter (c : Z) : M unit :=
  fun st =>
    Some (tt, {| output_file := output_file st;
                 temp_var_counter := c;
                 codegen_error_occurred := codegen_error_occurred st;
                 stderr := stderr st;
                 stdout := stdout st |}).

Definition set_output_file (f : option (list string)) : M unit :=
  fun st =>
    Some (tt, {| output_file := f;
                 temp_var_counter := temp_var_counter st;
                 codegen_error_occurred := codegen_error_occurred st;
                 stderr := stderr st;
                 stdout := stdout st |}).

Definition get {A} (field : State -> A) : M A :=
  fun st => Some (field st, st).

(** The process ends: a failed [assert], or a pointer to no symbol. *)
Definition abort {A} : M A := fun _ => None.

(** [message] is the rendered format. *)
Definition report_codegen_error (message : string) : M unit :=
  fprintf_stderr ("Semantic Error: " ++ message ++ nl) ;;
  set_error_flag true.

Fixpoint indentation (indent_level : nat) : string :=
  match indent_level with
  | O => EmptyString
  | S i => "    " ++ indentation i
  end.

(** [text] is the rendered format. *)
Definition emit (indent_level : nat) (text : string) : M unit :=
  f <- get output_file ;;
  match f with
  | None => ret tt
  | Some written =>
      set_output_file
        (Some (written
               ++ [(indentation indent_level ++ text ++ nl)%string])%list)
  end.

Fixpoint emit_all (calls : list (nat * string)) : M unit :=
  match calls with
  | [] => ret tt
  | (indent_level, text) :: rest => emit indent_level text ;; emit_all rest
  end.

(** [temp_var_counter] is an [int]; it is kept unbounded here, its
    overflow being undefined in C and [2^31] temporaries away. *)
Definition new_temp_scalar_var : M string :=
  c <- get temp_var_counter ;;
  set_counter (c + 1) ;;
  ret (snprintf 16 ("_ts" ++ fmt_d c)).

Definition new_temp_vector_var : M string :=
  c <- get temp_var_counter ;;
  set_counter (c + 1) ;;
  ret (snprintf 16 ("_tv" ++ fmt_d c)).

(** The calls of [generate_runtime_helpers], in order.  Seven of the
    formats hold a conversion ([%ld], and [% i] in a comment) and the call
    passes no argument for it: [va] gives what [vfprintf] reads there. *)
Definition runtime_helpers (va : nat -> Z) : list (nat * string) :=
    [ (0, "// --- Runtime Helper Functions ---");
      (0, "typedef struct {");
      (1, "double* data;");
      (1, "size_t size;");
      (0, "} Vector;");
      (0, EmptyString);
      (0, "// Creates a vector (allocates data). Caller must free using vector_free.");
      (0, "Vector vector_create(size_t size) {");
      (1, "Vector v;");
      (1, "v.size = size;");
      (1, "if (size > 0) {");
      (2, "v.data = (double*)malloc(size * sizeof(double));");
      (2, "if (!v.data) { perror(" ++ dq ++ "vector_create malloc failed"
       ++ dq ++ "); exit(1); }");
      (1, "} else {");
      (2, "v.data = NULL;");
      (1, "}");
      (1, "return v;");
      (0, "}");
      (0, EmptyString);
      (0, "// Frees the data array within a vector struct.");
      (0, "void vector_free_data(Vector *v) {");
      (1, "if (v && v->data) {");
      (2, "free(v->data);");
      (2, "v->data = NULL;");
      (2, "v->size = 0;");
      (1, "}");
      (0, "}");
      (0, EmptyString);
      (0, "// Assigns vector src to dst (deep copy). Frees existing dst data.");
      (0, "void vector_assign(Vector *dst, const Vector src) {");
      (1, "vector_free_data(dst); // Free existing data in destination");
      (1, "dst->size = src.size;");
      (1, "if (src.size > 0 && src.data) {");
      (2, "dst->data = (double*)malloc(src.size * sizeof(double));");
      (2, "if (!dst->data) { perror(" ++ dq ++ "vector_assign malloc failed"
       ++ dq ++ "); exit(1); }");
      (2, "memcpy(dst->data, src.data, src.size * sizeof(double));");
      (1, "} else {");
      (2, "dst->data = NULL;");
      (1, "}");
      (0, "}");
      (0, EmptyString);
      (0, "// Adds two vectors element-wise. Creates a new result vector.");
      (0, "Vector vector_add(Vector v1, Vector v2) {");
      (1, "if (v1.size != v2.size) { fprintf(stderr, " ++ dq
       ++ "Runtime Error: Vector size mismatch for add (" ++ fmt_d (va 0)
       ++ " != " ++ fmt_d (va 1) ++ ")\n" ++ dq
       ++ ", (long)v1.size, (long)v2.size); exit(1); }");
      (1, "Vector result = vector_create(v1.size);");
      (1, "for (size_t i = 0; i < result.size; ++i) {");
      (2, "result.data[i] = v1.data[i] + v2.data[i];");
      (2, "}");
      (1, "return result;");
      (0, "}");
      (0, EmptyString);
      (0, "// Subtracts v2 from v1 element-wise. Creates a new result vector.");
      (0, "Vector vector_sub(Vector v1, Vector v2) {");
      (1, "if (v1.size != v2.size) { fprintf(stderr, " ++ dq
       ++ "Runtime Error: Vector size mismatch for sub (" ++ fmt_d (va 2)
       ++ " != " ++ fmt_d (va 3) ++ ")\n" ++ dq
       ++ ", (long)v1.size, (long)v2.size); exit(1); }");
      (1, "Vector result = vector_create(v1.size);");
      (1, "for (size_t i = 0; i < result.size; ++i) {");
      (2, "result.data[i] = v1.data[i] - v2.data[i];");
      (2, "}");
      (1, "return result;");
      (0, "}");
      (0, EmptyString);
      (0, "// Multiplies two vectors element-wise. Creates a new result vector.");
      (0, "Vector vector_mul(Vector v1, Vector v2) {");
      (1, "if (v1.size != v2.size) { fprintf(stderr, " ++ dq
       ++ "Runtime Error: Vector size mismatch for mul (" ++ fmt_d (va 4)
       ++ " != " ++ fmt_d (va 5) ++ ")\n" ++ dq
       ++ ", (long)v1.size, (long)v2.size); exit(1); }");
      (1, "Vector result = vector_create(v1.size);");
      (1, "for (size_t i = 0; i < result.size; ++i) {");
      (2, "result.data[i] = v1.data[i] * v2.data[i];");
      (2, "}");
      (1, "return result;");
      (0, "}");
      (0, EmptyString);
      (0, "// Divides v1 by v2 element-wise. Creates a new result vector. Checks for division by zero.");
      (0, "Vector vector_div(Vector v1, Vector v2) {");
      (1, "if (v1.size != v2.size) { fprintf(stderr, " ++ dq
       ++ "Runtime Error: Vector size mismatch for div (" ++ fmt_d (va 6)
       ++ " != " ++ fmt_d (va 7) ++ ")\n" ++ dq
       ++ ", (long)v1.size, (long)v2.size); exit(1); }");
      (1, "Vector result = vector_create(v1.size);");
      (1, "for (size_t i = 0; i < result.size; ++i) {");
      (2, "if (v2.data[i] == 0.0) { fprintf(stderr, " ++ dq
       ++ "Runtime Error: Division by zero in vector division at index "
       ++ fmt_d (va 8) ++ "\n" ++ dq ++ ", (long)i); exit(1); }");
      (2, "result.data[i] = v1.data[i] / v2.data[i];");
      (2, "}");
      (1, "return result;");
      (0, "}");
      (0, EmptyString);
      (0, "// Adds scalar to each element of a vector. Creates new vector.");
      (0, "Vector vector_add_scalar(Vector v, double s) {");
      (1, "Vector result = vector_create(v.size);");
      (1, "for (size_t i = 0; i < result.size; ++i) {");
      (2, "result.data[i] = v.data[i] + s;");
      (1, "}");
      (1, "return result;");
      (0, "}");
      (0, EmptyString);
      (0, "// Reads a vector (space-separated doubles) from stdin until newline.");
      (0, "Vector runtime_read_vector() {");
      (1, "Vector v = vector_create(0); // Start with empty vector");
      (1, "double num;");
      (1, "size_t capacity = 0;");
      (1, "printf(" ++ dq ++ dq
       ++ ">>> Enter vector elements separated by spaces, then press Enter:\n"
       ++ dq ++ ");");
      (1, "int status;");
      (1, "while ((status = scanf(" ++ dq ++ "%lf" ++ dq
       ++ ", &num)) == 1) { // Escaped " ++ fmt_space_d (va 9)
       ++ "n scanf format string");
      (2, "// Resize buffer if needed (simple doubling strategy)");
      (2, "if (v.size >= capacity) {");
      (3, "capacity = (capacity == 0) ? 8 : capacity * 2;");
      (3, "double* new_data = (double*)realloc(v.data, capacity * sizeof(double));");
      (3, "if (!new_data) { perror(" ++ dq ++ "read_vector realloc failed"
       ++ dq ++ "); vector_free_data(&v); exit(1); }");
      (3, "v.data = new_data;");
      (2, "}");
      (2, "v.data[v.size++] = num;");
      (2, "// Stop reading on newline character");
      (2, "char next_char = getchar();");
      (2, "if (next_char == '" ++ nl ++ "' || next_char == EOF) { break; }");
      (2, "ungetc(next_char, stdin); // Put back non-newline char");
      (1, "}");
      (1, "// Handle case where scanf failed before reading any number or after some numbers");
      (1, "if (status != 1 && v.size == 0) { // Check if scanf failed immediately");
      (2, "fprintf(stderr, " ++ dq
       ++ "Runtime Error: Invalid input - expected numbers.\n" ++ dq
       ++ ");");
      (1, "}");
      (1, "// Clear remaining input buffer until newline or EOF");
      (1, "int c;");
      (1, "while ((c = getchar()) != '" ++ nl ++ "' && c != EOF);");
      (1, "printf(" ++ dq ++ dq ++ "<<< Read " ++ fmt_d (va 10)
       ++ " elements.\n" ++ dq ++ dq
       ++ ", (long)v.size); // Confirmation with escaped quotes");
      (1, "return v;");
      (0, "}");
      (0, EmptyString);
      (0, "// --- End Runtime Helper Functions ---");
      (0, EmptyString) ].

Definition generate_runtime_helpers (env : Env) : M unit :=
  emit_all (runtime_helpers (va_arg env)).

Section Generator.

(** The symbol table the AST points into; the generator only reads
    it. *)
Variable tbl : Symtab.table.

(** [sym->...] behind [assert(sym != NULL)]. *)
Definition symbol_of (sym : option Symtab.handle) : M Symtab.Symbol :=
  match sym with
  | None => abort
  | Some h =>
      match Symtab.deref tbl h with
      | None => abort
      | Some s => ret s
      end
  end.

Fixpoint declare_symbols (current : list Symtab.Symbol) : M unit :=
  match current with
  | [] => ret tt
  | c :: next =>
      match Symtab.type c with
      | SCALAR => emit 1 ("double " ++ Symtab.name c ++ " = 0.0;")
      | VECTOR => emit 1 ("Vector " ++ Symtab.name c ++ " = { NULL, 0 };")
      | _ =>
          emit 1 ("// WARNING: Undefined symbol type for "
                  ++ Symtab.name c)
      end ;;
      declare_symbols next
  end.

(** The loop over the pool, from [i] for [n] rounds. *)
Fixpoint declare_temps (i : Z) (n : nat) : M unit :=
  match n with
  | O => ret tt
  | S n' =>
      emit 1 ("double _ts" ++ fmt_d i ++ ";") ;;
      emit 1 ("Vector _tv" ++ fmt_d i ++ " = { NULL, 0 };") ;;
      declare_temps (i + 1) n'
  end.

Definition declare_variables : M unit :=
  emit 1 "// --- Variable Declarations ---" ;;
  declare_symbols (Symtab.symbol_get_list_head tbl) ;;
  emit 1 ("// Temporary variables (up to " ++ fmt_d 20 ++ " scalar, "
          ++ fmt_d 20 ++ " vector)") ;;
  declare_temps 0 20 ;;
  emit 1 "// ---------------------------" ;;
  emit 0 EmptyString.

Fixpoint cleanup_symbols (current : list Symtab.Symbol) : M unit :=
  match current with
  | [] => ret tt
  | c :: next =>
      match Symtab.type c with
      | VECTOR => emit 1 ("vector_free_data(&" ++ Symtab.name c ++ ");")
      | _ => ret tt
      end ;;
      cleanup_symbols next
  end.

Fixpoint cleanup_temps (i : Z) (n : nat) : M unit :=
  match n with
  | O => ret tt
  | S n' =>
      emit 1 ("vector_free_data(&_tv" ++ fmt_d i ++ ");") ;;
      cleanup_temps (i + 1) n'
  end.

Definition generate_cleanup_code : M unit :=
  emit 1 "// --- Cleanup Code ---" ;;
  cleanup_symbols (Symtab.symbol_get_list_head tbl) ;;
  c <- get temp_var_counter ;;
  cleanup_temps 0 (Z.to_nat c) ;;
  emit 1 "// --------------------" ;;
  emit 0 EmptyString.

Definition default_result : ExprResult :=
  {| code := "0.0"; type := SCALAR; is_temporary := true |}.

Definition null_expr_result : ExprResult :=
  {| code := "/* null expr */"; type := SCALAR; is_temporary := true |}.

Definition is_scalar (r : ExprResult) : bool :=
  Symtab.SymbolType_eqb (type r) SCALAR.

Definition is_vector (r : ExprResult) : bool :=
  Symtab.SymbolType_eqb (type r) VECTOR.

(** [generate_expression] on a NULL or non-NULL node, given its body on a
    non-NULL one. *)
Definition or_null_expr (body : ASTNode -> M ExprResult)
    (node : option ASTNode) : M ExprResult :=
  match node with
  | None => ret null_expr_result
  | Some n => body n
  end.

(** The loop over the elements of a vector literal; the separator is empty
    at [i == count - 1]. *)
Fixpoint vector_elements_loop (gen : option ASTNode -> M ExprResult)
    (items : list (option ASTNode)) : M unit :=
  match items with
  | [] => ret tt
  | item :: rest =>
      elem_res <- gen item ;;
      let sep := match rest with [] => EmptyString | _ => "," end in
      (if negb (is_scalar elem_res)
       then emit 2 ("/* WARNING: Non-scalar in vector literal */ 0.0" ++ sep)
       else emit 2 (code elem_res ++ sep)) ;;
      vector_elements_loop gen rest
  end.

(** The loop that fills [arg_results]. *)
Fixpoint arguments_loop (gen : option ASTNode -> M ExprResult)
    (items : list (option ASTNode)) : M (list ExprResult) :=
  match items with
  | [] => ret []
  | item :: rest =>
      r <- gen item ;;
      rs <- arguments_loop gen rest ;;
      ret (r :: rs)
  end.

(** The dispatch of [NODE_TYPE_BINARY_OP] on the operands' results. *)
Definition binary_op_dispatch (op : ascii) (left_res right_res : ExprResult)
  : M ExprResult :=
  if is_scalar left_res && is_scalar right_res then
    temp_scalar_var <- new_temp_scalar_var ;;
    emit 1 (temp_scalar_var ++ " = (" ++ code left_res ++ ") " ++ fmt_c op
            ++ " (" ++ code right_res ++ ");") ;;
    ret {| code := temp_scalar_var; type := SCALAR; is_temporary := false |}
  else if is_vector left_res && is_vector right_res then
    temp_vector_var <- new_temp_vector_var ;;
    op_func <-
      (if Ascii.eqb op "+" then ret "vector_add"
       else if Ascii.eqb op "-" then ret "vector_sub"
       else if Ascii.eqb op "*" then ret "vector_mul"
       else if Ascii.eqb op "/" then ret "vector_div"
       else
         emit 1 ("// ERROR: Unsupported vector binary op '" ++ fmt_c op
                 ++ "'") ;;
         ret EmptyString) ;;
    if 0 <? String.length op_func then
      emit 1 (temp_vector_var ++ " = " ++ op_func ++ "(" ++ code left_res
              ++ ", " ++ code right_res ++ ");") ;;
      ret {| code := temp_vector_var; type := VECTOR;
             is_temporary := false |}
    else
      ret {| code := "/* Invalid vector op */"; type := VECTOR;
             is_temporary := true |}
  else if is_vector left_res && is_scalar right_res && Ascii.eqb op "+" then
    temp_vector_var <- new_temp_vector_var ;;
    emit 1 (temp_vector_var ++ " = vector_add_scalar(" ++ code left_res
            ++ ", " ++ code right_res ++ ");") ;;
    ret {| code := temp_vector_var; type := VECTOR; is_temporary := false |}
  else if is_scalar left_res && is_vector right_res && Ascii.eqb op "+" then
    temp_vector_var <- new_temp_vector_var ;;
    emit 1 (temp_vector_var ++ " = vector_add_scalar(" ++ code right_res
            ++ ", " ++ code left_res ++ ");") ;;
    ret {| code := temp_vector_var; type := VECTOR; is_temporary := false |}
  else if (is_vector left_res && is_scalar right_res)
          || (is_scalar left_res && is_vector right_res) then
    if Ascii.eqb op "+" then
      temp_vector_var <- new_temp_vector_var ;;
      emit 1 (temp_vector_var ++ " = vector_add_scalar(" ++ code left_res
              ++ ", " ++ code right_res ++ ");") ;;
      ret {| code := temp_vector_var; type := VECTOR;
             is_temporary := false |}
    else
      report_codegen_error
        ("Unsupported binary operation '" ++ fmt_c op
         ++ "' between scalar and vector.") ;;
      ret default_result
  else
    report_codegen_error
      ("Type mismatch for binary operation '" ++ fmt_c op ++ "' (LHS: "
       ++ fmt_d (Symtab.SymbolType_int (type left_res)) ++ ", RHS: "
       ++ fmt_d (Symtab.SymbolType_int (type right_res)) ++ ").") ;;
    ret default_result.

(** The dispatch of [NODE_TYPE_UNARY_OP] on the operand's result. *)
Definition unary_op_dispatch (op : ascii) (left_res : ExprResult)
  : M ExprResult :=
  if is_scalar left_res && Ascii.eqb op "-" then
    temp_scalar_var <- new_temp_scalar_var ;;
    emit 1 (temp_scalar_var ++ " = " ++ fmt_c op ++ "(" ++ code left_res
            ++ ");") ;;
    ret {| code := temp_scalar_var; type := SCALAR; is_temporary := false |}
  else
    report_codegen_error
      ("Unsupported unary operation '" ++ fmt_c op
       ++ "' or type mismatch (Type: "
       ++ fmt_d (Symtab.SymbolType_int (type left_res)) ++ ").") ;;
    ret {| code := "/* type error */ 0.0"; type := SCALAR;
           is_temporary := true |}.

(** [read_vector]: no argument is generated. *)
Definition read_vector_call (arg_count : nat) : M ExprResult :=
  if arg_count =? 0 then
    temp_vector_var <- new_temp_vector_var ;;
    emit 1 (temp_vector_var ++ " = runtime_read_vector();") ;;
    ret {| code := temp_vector_var; type := VECTOR; is_temporary := false |}
  else
    report_codegen_error
      ("read_vector() expects 0 arguments, got "
       ++ fmt_d (Z.of_nat arg_count) ++ ".") ;;
    ret {| code := "/* invalid read_vector call */"; type := VECTOR;
           is_temporary := true |}.

(** [arg_count == 2 && arg_results[0].type == VECTOR &&
    arg_results[1].type == VECTOR]. *)
Definition two_vectors (arg_results : list ExprResult) : bool :=
  match arg_results with
  | [a0; a1] => is_vector a0 && is_vector a1
  | _ => false
  end.

(** [scatter_plot], once its arguments are generated. *)
Definition scatter_plot_call (arg_results : list ExprResult)
  : M ExprResult :=
  if two_vectors arg_results then
    let a0 := code (nth 0 arg_results default_result) in
    let a1 := code (nth 1 arg_results default_result) in
    emit 1 ("c_scatter_plot(" ++ a0 ++ ".data, " ++ a0 ++ ".size, "
            ++ a1 ++ ".data, " ++ a1 ++ ".size);") ;;
    ret {| code := "/* scatter_plot call */"; type := SCALAR;
           is_temporary := true |}
  else
    report_codegen_error "scatter_plot() expects 2 vector arguments." ;;
    ret {| code := "/* invalid scatter_plot call */"; type := SCALAR;
           is_temporary := true |}.

(** The loop that builds [arg_str], from argument [i] on.  [arg_str] never
    grows past [capacity - 1] characters, so the [size_t] difference passed
    to [strncat] does not wrap. *)
Fixpoint build_arg_str (capacity : nat) (arg_str : string) (i : nat)
    (arg_results : list ExprResult) : string :=
  match arg_results with
  | [] => arg_str
  | r :: rest =>
      let arg_str :=
        if 0 <? i
        then strncat arg_str ", " (capacity - String.length arg_str - 1)
        else arg_str in
      let arg_str :=
        if is_vector r then
          let vec_arg_part :=
            snprintf 128 (code r ++ ".data, " ++ code r ++ ".size") in
          strncat arg_str vec_arg_part
            (capacity - String.length arg_str - 1)
        else
          strncat arg_str (code r) (capacity - String.length arg_str - 1) in
      build_arg_str capacity arg_str (S i) rest
  end.

(** Any other function, once its arguments are generated. *)
Definition generic_call (func_name : string) (arg_results : list ExprResult)
  : M ExprResult :=
  let arg_count := List.length arg_results in
  let arg_str_capacity := arg_count * 25 + 5 in
  let arg_str := build_arg_str arg_str_capacity EmptyString 0 arg_results in
  temp_scalar_var <- new_temp_scalar_var ;;
  emit 1 (temp_scalar_var ++ " = " ++ func_name ++ "(" ++ arg_str
          ++ "); // Generic function call result") ;;
  ret {| code := temp_scalar_var; type := SCALAR; is_temporary := false |}.

(** The body of [generate_expression] past its NULL test. *)
Fixpoint generate_expression_at (node : ASTNode) : M ExprResult :=
  let generate_expression := or_null_expr generate_expression_at in
  match node with
  | NODE_TYPE_NUMBER number_value =>
      ret {| code := snprintf 256 (fmt_f number_value); type := SCALAR;
             is_temporary := true |}
  | NODE_TYPE_IDENTIFIER identifier_symbol =>
      sym <- symbol_of identifier_symbol ;;
      ret {| code := Symtab.name sym; type := Symtab.type sym;
             is_temporary := true |}
  | NODE_TYPE_VECTOR vector_elements =>
      temp_vec_var_name <- new_temp_vector_var ;;
      let count := List.length vector_elements in
      let temp_array_name :=
        snprintf 64 (temp_vec_var_name ++ "_init_data") in
      emit 1 ("// Generating vector literal for " ++ temp_vec_var_name) ;;
      emit 1 ("double " ++ temp_array_name ++ "[] = {") ;;
      vector_elements_loop generate_expression vector_elements ;;
      emit 1 "};" ;;
      emit 1 ("vector_assign(&" ++ temp_vec_var_name ++ ", (Vector){ "
              ++ temp_array_name ++ ", " ++ fmt_d (Z.of_nat count)
              ++ " });") ;;
      ret {| code := temp_vec_var_name; type := VECTOR;
             is_temporary := false |}
  | NODE_TYPE_BINARY_OP op lhs rhs =>
      left_res <- generate_expression lhs ;;
      right_res <- generate_expression rhs ;;
      binary_op_dispatch op left_res right_res
  | NODE_TYPE_UNARY_OP op operand =>
      left_res <- generate_expression operand ;;
      unary_op_dispatch op left_res
  | NODE_TYPE_FUNC_CALL function_symbol arguments =>
      fsym <- symbol_of function_symbol ;;
      let func_name := Symtab.name fsym in
      let arg_count := List.length arguments in
      emit 1 ("// Generating function call: " ++ func_name ++ "()") ;;
      if streq func_name "read_vector" then read_vector_call arg_count
      else
        arg_results <- arguments_loop generate_expression arguments ;;
        if streq func_name "scatter_plot"
        then scatter_plot_call arg_results
        else generic_call func_name arg_results
  | _ =>
      emit 1 ("// Expression generation not implemented for node type "
              ++ fmt_d (NodeType_int node)) ;;
      ret {| code := snprintf 256 ("/* UNIMPL EXPR "
                                   ++ fmt_d (NodeType_int node) ++ " */");
             type := SCALAR; is_temporary := true |}
  end.

Definition generate_expression : option ASTNode -> M ExprResult :=
  or_null_expr generate_expression_at.

(** [generate_statement] on a NULL or non-NULL node, given its body on a
    non-NULL one. *)
Definition or_skip (body : ASTNode -> M unit) (node : option ASTNode)
  : M unit :=
  match node with
  | None => ret tt
  | Some n => body n
  end.

(** The loop over the items of a statement list. *)
Fixpoint statements_loop (gen : option ASTNode -> M unit)
    (items : list (option ASTNode)) : M unit :=
  match items with
  | [] => ret tt
  | item :: rest => gen item ;; statements_loop gen rest
  end.

(** The type check of an assignment and what it emits, once the right-hand
    side is generated without error. *)
Definition assignment_check (target_sym : Symtab.Symbol)
    (expr_res : ExprResult) : M unit :=
  let target_var := Symtab.name target_sym in
  let target_type := Symtab.type target_sym in
  emit 1 ("// RHS Type: " ++ fmt_d (Symtab.SymbolType_int (type expr_res))) ;;
  if negb ((Symtab.SymbolType_eqb target_type SCALAR && is_scalar expr_res)
           || (Symtab.SymbolType_eqb target_type VECTOR
               && is_vector expr_res))
  then
    report_codegen_error
      ("Type mismatch in assignment to '" ++ target_var ++ "' (Target: "
       ++ fmt_d (Symtab.SymbolType_int target_type) ++ ", RHS: "
       ++ fmt_d (Symtab.SymbolType_int (type expr_res)) ++ ")")
  else if Symtab.SymbolType_eqb target_type SCALAR then
    emit 1 (target_var ++ " = " ++ code expr_res ++ ";")
  else
    emit 1 ("vector_assign(&" ++ target_var ++ ", " ++ code expr_res ++ ");").

(** [node->type != NODE_TYPE_FUNC_CALL ||
    strcmp(function_symbol->name, "scatter_plot") != 0]. *)
Definition value_is_discarded (node : ASTNode) : M bool :=
  match node with
  | NODE_TYPE_FUNC_CALL function_symbol _ =>
      fsym <- symbol_of function_symbol ;;
      ret (negb (streq (Symtab.name fsym) "scatter_plot"))
  | _ => ret true
  end.

(** The case shared by the six expression kinds: a standalone expression
    or call, its value discarded. *)
Definition expression_statement (node : ASTNode) : M unit :=
  emit 1 "// Expression/Call statement (value discarded)" ;;
  expr_res <- generate_expression (Some node) ;;
  discarded <- value_is_discarded node ;;
  (if discarded
   then emit 1 ("(void)(" ++ code expr_res ++ "); // Discard result")
   else ret tt) ;;
  if is_vector expr_res && negb (is_temporary expr_res)
  then emit 1 ("// vector_free_data(&" ++ code expr_res
               ++ "); // Free temp vector result if needed")
  else ret tt.

(** The body of [generate_statement] past its NULL test. *)
Fixpoint generate_statement_at (node : ASTNode) : M unit :=
  let generate_statement := or_skip generate_statement_at in
  failed <- get codegen_error_occurred ;;
  if failed then ret tt
  else
    match node with
    | NODE_TYPE_STATEMENT_LIST statement_list =>
        emit 1 "{ // Start block" ;;
        statements_loop generate_statement statement_list ;;
        emit 1 "} // End block"
    | NODE_TYPE_ASSIGNMENT target_symbol expression =>
        target_sym <- symbol_of target_symbol ;;
        emit 1 ("// Assignment to " ++ Symtab.name target_sym ++ " (Type: "
                ++ fmt_d (Symtab.SymbolType_int (Symtab.type target_sym))
                ++ ")") ;;
        expr_res <- generate_expression expression ;;
        failed <- get codegen_error_occurred ;;
        if failed then ret tt
        else assignment_check target_sym expr_res
    | NODE_TYPE_NUMBER _
    | NODE_TYPE_IDENTIFIER _
    | NODE_TYPE_VECTOR _
    | NODE_TYPE_BINARY_OP _ _ _
    | NODE_TYPE_UNARY_OP _ _
    | NODE_TYPE_FUNC_CALL _ _ => expression_statement node
    | NODE_TYPE_IF condition if_branch else_branch =>
        emit 1 "// If statement" ;;
        expr_res <- generate_expression condition ;;
        failed <- get codegen_error_occurred ;;
        if failed then emit 1 "if (0) { // Type error in condition"
        else
          (if negb (is_scalar expr_res) then
             report_codegen_error
               "Non-scalar condition used for IF statement." ;;
             emit 1 "if (0) { // Type error in condition"
           else emit 1 ("if ((" ++ code expr_res ++ ") != 0.0) {")) ;;
          generate_statement if_branch ;;
          emit 1 "}" ;;
          match else_branch with
          | Some _ =>
              emit 1 "else {" ;;
              generate_statement else_branch ;;
              emit 1 "}"
          | None => ret tt
          end
    | NODE_TYPE_WHILE condition loop_body =>
        emit 1 "// While loop" ;;
        expr_res <- generate_expression condition ;;
        failed <- get codegen_error_occurred ;;
        if failed then emit 1 "while (0) { // Type error in condition"
        else
          (if negb (is_scalar expr_res) then
             report_codegen_error
               "Non-scalar condition used for WHILE statement." ;;
             emit 1 "while (0) { // Type error in condition"
           else emit 1 ("while ((" ++ code expr_res ++ ") != 0.0) {")) ;;
          generate_statement loop_body ;;
          emit 1 "} // End while"
    | NODE_TYPE_UNKNOWN =>
        emit 1 ("// Statement generation not implemented for node type "
                ++ fmt_d (NodeType_int node))
    end.

Definition generate_statement : option ASTNode -> M unit :=
  or_skip generate_statement_at.

(** What [generate_code] emits before the runtime helpers. *)
Definition file_header : list (nat * string) :=
  [ (0, "// Generated by WIZUALL Compiler");
    (0, EmptyString);
    (0, "#include <stdio.h>");
    (0, "#include <stdlib.h>");
    (0, "#include <math.h>");
    (0, "#include <string.h> // For memcpy");
    (0, "#include <stddef.h> // For size_t");
    (0, "#include <assert.h>");
    (0, "#include " ++ dq ++ "runtime_viz.h" ++ dq
     ++ " // Include viz function declarations");
    (0, EmptyString) ].

Definition main_start : list (nat * string) :=
  [ (0, "// --- Main Program ---");
    (0, "int main() {");
    (1, "printf(" ++ dq ++ "Executing generated code...\n" ++ dq ++ ");");
    (0, EmptyString) ].

Definition main_end : list (nat * string) :=
  [ (1, "printf(" ++ dq ++ "Code execution finished.\n" ++ dq ++ ");");
    (1, "return 0;");
    (0, "} // end main") ].

(** The result is what the call wrote to the file it opened and closed:
    [None] when it opened none. *)
Definition generate_code (env : Env) (ast_root : option ASTNode)
    (output_filename : string) : M (option (list string)) :=
  match ast_root with
  | Some (NODE_TYPE_STATEMENT_LIST _) =>
      if fopen_ok env then
        set_output_file (Some []) ;;
        set_counter 0 ;;
        set_error_flag false ;;
        emit_all file_header ;;
        generate_runtime_helpers env ;;
        emit_all main_start ;;
        declare_variables ;;
        emit 1 "// --- Program Statements ---" ;;
        generate_statement ast_root ;;
        emit 1 "// ------------------------" ;;
        emit 0 EmptyString ;;
        generate_cleanup_code ;;
        emit_all main_end ;;
        written <- get output_file ;;
        set_output_file None ;;
        failed <- get codegen_error_occurred ;;
        (if failed then
           fprintf_stderr
             ("Code generation failed due to semantic errors. Output file '"
              ++ output_filename ++ "' may be incomplete or incorrect."
              ++ nl)
         else
           printf ("Code generation complete: " ++ output_filename ++ nl)) ;;
        ret written
      else
        fprintf_stderr
          ("Failed to open output C file: " ++ errno_text env ++ nl) ;;
        ret None
  | _ =>
      fprintf_stderr
        ("Error: Cannot generate code from empty or non-statement-list "
         ++ "root AST." ++ nl) ;;
      ret None
  end.

End Generator.

(** The bytes of a file, from the entries written to it. *)
Definition file_text (written : list string) : string :=
  String.concat EmptyString written.

(** ** Vocabulary of the properties *)

(** The entry one [emit] call writes. *)
Definition line (indent_level : nat) (text : string) : string :=
  indentation indent_level ++ text ++ nl.

(** The statics once [lines] are written to [output_file] (nothing is
    written when it is NULL). *)
Definition emitted (lines : list string) (st : State) : State :=
  {| output_file :=
       option_map (fun written => (written ++ lines)%list) (output_file st);
     temp_var_counter := temp_var_counter st;
     codegen_error_occurred := codegen_error_occurred st;
     stderr := stderr st;
     stdout := stdout st |}.

(** The statics once [report_codegen_error] has run on [message]. *)
Definition reported (message : string) (st : State) : State :=
  {| output_file := output_file st;
     temp_var_counter := temp_var_counter st;
     codegen_error_occurred := true;
     stderr :=
       (stderr st ++ [("Semantic Error: " ++ message ++ nl)%string])%list;
     stdout := stdout st |}.

(** The statics once a temporary name is taken. *)
Definition bumped (st : State) : State :=
  {| output_file := output_file st;
     temp_var_counter := temp_var_counter st + 1;
     codegen_error_occurred := codegen_error_occurred st;
     stderr := stderr st;
     stdout := stdout st |}.

(** Past the test of the flag. *)
Definition unless_failed (body : M unit) : M unit :=
  failed <- get codegen_error_occurred ;;
  if failed then ret tt else body.

(** An expression of scalar arithmetic only: numbers, symbols of kind
    Scalar, operations on such expressions, and calls other than
    [read_vector] on such arguments. *)
Fixpoint scalar_only (tbl : Symtab.table) (node : ASTNode) : bool :=
  let child (c : option ASTNode) : bool :=
    match c with
    | None => true
    | Some n => scalar_only tbl n
    end in
  match node with
  | NODE_TYPE_NUMBER _ => true
  | NODE_TYPE_IDENTIFIER (Some h) =>
      match Symtab.deref tbl h with
      | Some sym => Symtab.SymbolType_eqb (Symtab.type sym) SCALAR
      | None => false
      end
  | NODE_TYPE_BINARY_OP _ lhs rhs => child lhs && child rhs
  | NODE_TYPE_UNARY_OP _ operand => child operand
  | NODE_TYPE_FUNC_CALL (Some h) arguments =>
      match Symtab.deref tbl h with
      | Some fsym =>
          negb (streq (Symtab.name fsym) "read_vector")
          && forallb child arguments
      | None => false
      end
  | _ => false
  end.

(** A translation that ends, resolves to Scalar and, when its result
    names a declared temporary, names a scalar one. *)
Definition scalar_run (m : M ExprResult) : Prop :=
  forall st, exists r st',
    m st = Some (r, st') /\
    type r = SCALAR /\
    (is_temporary r = false ->
     exists k, code r = snprintf 16 ("_ts" ++ fmt_d k)).

(** What [declare_temps i n] writes. *)
Fixpoint pool_lines (i : Z) (n : nat) : list string :=
  match n with
  | O => []
  | S n' =>
      line 1 ("double _ts" ++ fmt_d i ++ ";")
      :: line 1 ("Vector _tv" ++ fmt_d i ++ " = { NULL, 0 };")
      :: pool_lines (i + 1) n'
  end.

(** Two states of the statics with the same open file, counter and flag;
    the streams of the process may differ. *)
Definition agree (st st' : State) : Prop :=
  output_file st = output_file st' /\
  temp_var_counter st = temp_var_counter st' /\
  codegen_error_occurred st = codegen_error_occurred st'.

(** Two runs end alike: both end the process, or both return the same
    value in states related by [R]. *)
Definition alike {A} (R : State -> State -> Prop)
    (r r' : option (A * State)) : Prop :=
  match r, r' with
  | Some (a, s), Some (a', s') => a = a' /\ R s s'
  | None, None => True
  | _, _ => False
  end.

(** A computation that does not look at the streams of the process. *)
Definition uniform {A} (m : M A) : Prop :=
  forall st st', agree st st' -> alike agree (m st) (m st').

(** ** Inputs of the examples *)

(** A table of four symbols, oldest last: scalar [x] (handle 0), vectors
    [v] (1) and [w] (2), and the function name [scatter_plot] (3). *)
Definition example_table : Symtab.table :=
  [ {| Symtab.name := "scatter_plot"; Symtab.type := SCALAR;
       Symtab.value := Symtab.scalar_value 0%float |};
    {| Symtab.name := "w"; Symtab.type := VECTOR;
       Symtab.value := Symtab.vector_value None 0 |};
    {| Symtab.name := "v"; Symtab.type := VECTOR;
       Symtab.value := Symtab.vector_value None 0 |};
    {| Symtab.name := "x"; Symtab.type := SCALAR;
       Symtab.value := Symtab.scalar_value 0%float |} ].

(** The statics as [generate_code] sets them, over an empty file. *)
Definition started : State :=
  {| output_file := Some []; temp_var_counter := 0;
     codegen_error_occurred := false; stderr := []; stdout := [] |}.

(** [x = -v;]: negation of a vector. *)
Definition stmt_negate_vector : ASTNode :=
  NODE_TYPE_ASSIGNMENT (Some 0)
    (Some (NODE_TYPE_UNARY_OP "-" (Some (NODE_TYPE_IDENTIFIER (Some 1))))).

(** [x = (x - v) + (x - w);]: two unsupported operands in one statement. *)
Definition stmt_two_errors : ASTNode :=
  NODE_TYPE_ASSIGNMENT (Some 0)
    (Some (NODE_TYPE_BINARY_OP "+"
             (Some (NODE_TYPE_BINARY_OP "-"
                      (Some (NODE_TYPE_IDENTIFIER (Some 0)))
                      (Some (NODE_TYPE_IDENTIFIER (Some 1)))))
             (Some (NODE_TYPE_BINARY_OP "-"
                      (Some (NODE_TYPE_IDENTIFIER (Some 0)))
                      (Some (NODE_TYPE_IDENTIFIER (Some 2))))))).

(** [x = v;]: a vector assigned to a scalar. *)
Definition stmt_vector_to_scalar : ASTNode :=
  NODE_TYPE_ASSIGNMENT (Some 0) (Some (NODE_TYPE_IDENTIFIER (Some 1))).

(** [[v]]: a vector literal whose element is a vector. *)
Definition expr_vector_of_vector : ASTNode :=
  NODE_TYPE_VECTOR [Some (NODE_TYPE_IDENTIFIER (Some 1))].

(** [5 + v]. *)
Definition expr_scalar_plus_vector : ASTNode :=
  NODE_TYPE_BINARY_OP "+" (Some (NODE_TYPE_NUMBER 5%float))
    (Some (NODE_TYPE_IDENTIFIER (Some 1))).

(** [scatter_plot(v, w)]. *)
Definition expr_scatter_plot_vectors : ASTNode :=
  NODE_TYPE_FUNC_CALL (Some 3)
    [Some (NODE_TYPE_IDENTIFIER (Some 1)); Some (NODE_TYPE_IDENTIFIER (Some 2))].

(** A table that holds the scalar [x] alone (handle 0). *)
Definition scalar_table : Symtab.table :=
  [ {| Symtab.name := "x"; Symtab.type := SCALAR;
       Symtab.value := Symtab.scalar_value 0%float |} ].

(** [x + 1.0]. *)
Definition expr_scalar_sum : ASTNode :=
  NODE_TYPE_BINARY_OP "+" (Some (NODE_TYPE_IDENTIFIER (Some 0)))
    (Some (NODE_TYPE_NUMBER 1%float)).

(** [{ x = x + 1.0; }]. *)
Definition scalar_program : ASTNode :=
  NODE_TYPE_STATEMENT_LIST
    [Some (NODE_TYPE_ASSIGNMENT (Some 0) (Some expr_scalar_sum))].

(** Two environments that differ only in what [vfprintf] reads for the
    conversions without an argument. *)
Definition env_zero : Env :=
  {| fopen_ok := true; errno_text := EmptyString; va_arg := fun _ => 0%Z |}.

Definition env_one : Env :=
  {| fopen_ok := true; errno_text := EmptyString; va_arg := fun _ => 1%Z |}.

End Codegen.

(* ------------------------------------------------------------------ *)
(** * ast.c: building the tree *)
(* ------------------------------------------------------------------ *)

Module AstBuild.

Import Ast.

(** A [NodeList]: the items in use ([count] is their number) and the
    [capacity] of the array behind them. *)
Record NodeList := {
  items : list (option ASTNode);
  capacity : nat
}.

Definition count (list : NodeList) : nat := List.length (items list).

Definition INITIAL_LIST_CAPACITY : nat := 8.

(** [realloc] keeps the items in use; its failure ends the process and is
    not modelled. *)
Definition ensure_list_capacity (list : NodeList) : NodeList :=
  if capacity list <=? count list then
    {| items := items list;
       capacity := if capacity list =? 0 then INITIAL_LIST_CAPACITY
                   else capacity list * 2 |}
  else list.

(** [list->items[list->count++] = item], after [ensure_list_capacity]. *)
Definition push (list : NodeList) (item : ASTNode) : NodeList :=
  let list := ensure_list_capacity list in
  {| items := (items list ++ [Some item])%list; capacity := capacity list |}.

(** The list after the call; a NULL [list] or [argument] changes
    nothing. *)
Definition ast_add_argument (list : option NodeList)
    (argument : option ASTNode) : option NodeList :=
  match list, argument with
  | Some l, Some a => Some (push l a)
  | _, _ => list
  end.

Definition ast_new_number (value : float) : ASTNode := NODE_TYPE_NUMBER value.

Definition ast_new_identifier (sym : option Symtab.handle) : ASTNode :=
  NODE_TYPE_IDENTIFIER sym.

Definition ast_new_binary_op (op : ascii) (lhs rhs : option ASTNode)
  : ASTNode :=
  NODE_TYPE_BINARY_OP op lhs rhs.

Definition ast_new_unary_op (op : ascii) (operand : option ASTNode)
  : ASTNode :=
  NODE_TYPE_UNARY_OP op operand.

Definition ast_new_assignment (sym : option Symtab.handle)
    (expression : option ASTNode) : ASTNode :=
  NODE_TYPE_ASSIGNMENT sym expression.

Definition ast_new_vector : ASTNode := NODE_TYPE_VECTOR [].

Definition ast_new_statement_list : ASTNode := NODE_TYPE_STATEMENT_LIST [].

Definition ast_new_if (condition if_branch else_branch : option ASTNode)
  : ASTNode :=
  NODE_TYPE_IF condition if_branch else_branch.

Definition ast_new_while (condition loop_body : option ASTNode) : ASTNode :=
  NODE_TYPE_WHILE condition loop_body.

(** The node takes over the items of [args]. *)
Definition ast_new_func_call (func_sym : option Symtab.handle)
    (args : NodeList) : ASTNode :=
  NODE_TYPE_FUNC_CALL func_sym (items args).

(** The node after the call.  A node of the tree holds the items of its
    list; the capacity behind them is the one [push] keeps. *)
Definition ast_add_vector_element (vector_node element : option ASTNode)
  : option ASTNode :=
  match vector_node, element with
  | Some (NODE_TYPE_VECTOR elements), Some e =>
      Some (NODE_TYPE_VECTOR (elements ++ [Some e])%list)
  | _, _ => vector_node
  end.

Definition ast_add_statement (list_node statement : option ASTNode)
  : option ASTNode :=
  match list_node, statement with
  | Some (NODE_TYPE_STATEMENT_LIST statements), Some s =>
      Some (NODE_TYPE_STATEMENT_LIST (statements ++ [Some s])%list)
  | _, _ => list_node
  end.

(** ** Vocabulary of the properties *)

(** What a list keeps between calls: the items fit the array, and the
    array is empty or no larger than the first size or twice the items. *)
Definition within_capacity (list : NodeList) : Prop :=
  count list <= capacity list /\
  capacity list <= Nat.max INITIAL_LIST_CAPACITY (2 * count list).

Definition empty_list : NodeList := {| items := []; capacity := 0 |}.

(** The non-NULL pointers of a sequence, in order. *)
Definition non_null (nodes : list (option ASTNode)) : list (option ASTNode) :=
  filter (fun n => match n with Some _ => true | None => false end) nodes.

End AstBuild.

(* ------------------------------------------------------------------ *)
(** * runtime_viz.c *)
(* ------------------------------------------------------------------ *)

Module RuntimeViz.

Import Libc.

(** What the call cannot read off its arguments: whether the data file
    opens, the text [perror] appends, and what [system] returns. *)
Record VizEnv := {
  data_file_opens : bool;
  perror_text : string;
  system_status : Z
}.

(** What the call leaves behind: the two streams, the content of
    [plot_data.txt] when it was written, and the commands handed to
    [system]. *)
Record Effects := {
  to_stdout : list string;
  to_stderr : list string;
  plot_data_txt : option (list string);
  commands : list string
}.

(** The lines of the loop over [i < n]; [None] when an index falls outside
    a buffer. *)
Fixpoint data_lines (x_data y_data : list float) (n : nat) {struct n}
  : option (list string) :=
  match n with
  | O => Some []
  | S n' =>
      match x_data, y_data with
      | x :: xs, y :: ys =>
          match data_lines xs ys n' with
          | Some rest => Some ((fmt_f x ++ " " ++ fmt_f y ++ nl)%string :: rest)
          | None => None
          end
      | _, _ => None
      end
  end.

Definition c_scatter_plot (env : VizEnv) (x_data : option (list float))
    (x_size : nat) (y_data : option (list float)) (y_size : nat)
  : option Effects :=
  let started := ("Executing scatter_plot runtime function..." ++ nl)%string in
  match x_data, y_data with
  | Some xs, Some ys =>
      if negb (x_size =? y_size) then
        Some {| to_stdout := [started];
                to_stderr :=
                  [("Error: scatter_plot requires vectors of the same size ("
                    ++ fmt_d (Z.of_nat x_size) ++ " != "
                    ++ fmt_d (Z.of_nat y_size) ++ ")." ++ nl)%string];
                plot_data_txt := None; commands := [] |}
      else if x_size =? 0 then
        Some {| to_stdout :=
                  [started;
                   ("Warning: scatter_plot called with empty vectors."
                    ++ nl)%string];
                to_stderr := []; plot_data_txt := None; commands := [] |}
      else if negb (data_file_opens env) then
        Some {| to_stdout := [started];
                to_stderr :=
                  [("Error opening plot data file: " ++ perror_text env
                    ++ nl)%string];
                plot_data_txt := None; commands := [] |}
      else
        match data_lines xs ys x_size with
        | None => None
        | Some lines =>
            Some {| to_stdout :=
                      [started;
                       ("Data written to plot_data.txt" ++ nl)%string;
                       ("Calling Gnuplot: gnuplot plot.gp" ++ nl)%string;
                       ("scatter_plot runtime function finished."
                        ++ nl)%string];
                    to_stderr :=
                      if (system_status env =? 0)%Z then []
                      else
                        [("Warning: system() call to gnuplot returned "
                          ++ fmt_d (system_status env)
                          ++ ". Is gnuplot installed and in PATH? "
                          ++ "Does plot.gp exist?" ++ nl)%string];
                    plot_data_txt := Some (("# X Y" ++ nl)%string :: lines);
                    commands := ["gnuplot plot.gp"] |}
        end
  | _, _ =>
      Some {| to_stdout := [started];
              to_stderr :=
                [("Error: scatter_plot received NULL data pointer."
                  ++ nl)%string];
              plot_data_txt := None; commands := [] |}
  end.

End RuntimeViz.

(* ------------------------------------------------------------------ *)
(** * Vocabulary of the further properties *)
(* ------------------------------------------------------------------ *)

Module SymtabInvariants.

Import Symtab.

(** The payload of a cell matches its kind, and a vector's buffer, when it
    has one, holds exactly [size] elements, [size] positive. *)
Definition consistent (c : Symbol) : Prop :=
  match type c, value c with
  | SYMBOL_TYPE_SCALAR, scalar_value _ => True
  | SYMBOL_TYPE_VECTOR, vector_value None _ => True
  | SYMBOL_TYPE_VECTOR, vector_value (Some buf) n =>
      List.length buf = n /\ 0 < n
  | _, _ => False
  end.

End SymtabInvariants.

Module CodegenInvariants.

Import Libc Ast Codegen.

(** What a translation may do to the statics: take temporary names, set
    the error flag, append to the open file, and append to [stderr], the
    last only if the flag ends up set. *)
Definition extends (st st' : State) : Prop :=
  (temp_var_counter st <= temp_var_counter st')%Z /\
  (codegen_error_occurred st = true -> codegen_error_occurred st' = true) /\
  (exists lines,
     output_file st'
     = option_map (fun written => (written ++ lines)%list) (output_file st)) /\
  (exists messages,
     stderr st' = (stderr st ++ messages)%list /\
     (messages <> [] -> codegen_error_occurred st' = true)) /\
  stdout st' = stdout st.

(** A computation whose every run extends the statics it starts from. *)
Definition orderly {A} (m : M A) : Prop :=
  forall st a st', m st = Some (a, st') -> extends st st'.

(** A computation that never ends the process. *)
Definition safe {A} (m : M A) : Prop := forall st, m st <> None.

(** A non-NULL symbol pointer into the table. *)
Definition known (tbl : Symtab.table) (sym : option Symtab.handle) : bool :=
  match sym with
  | Some h =>
      match Symtab.deref tbl h with
      | Some _ => true
      | None => false
      end
  | None => false
  end.

(** A tree whose every identifier, assignment target and callee is a
    symbol of the table. *)
Fixpoint symbols_valid (tbl : Symtab.table) (node : ASTNode) : bool :=
  let child (c : option ASTNode) : bool :=
    match c with
    | None => true
    | Some n => symbols_valid tbl n
    end in
  match node with
  | NODE_TYPE_UNKNOWN | NODE_TYPE_NUMBER _ => true
  | NODE_TYPE_VECTOR vector_elements => forallb child vector_elements
  | NODE_TYPE_IDENTIFIER sym => known tbl sym
  | NODE_TYPE_BINARY_OP _ lhs rhs => child lhs && child rhs
  | NODE_TYPE_UNARY_OP _ operand => child operand
  | NODE_TYPE_ASSIGNMENT sym expression => known tbl sym && child expression
  | NODE_TYPE_STATEMENT_LIST statement_list => forallb child statement_list
  | NODE_TYPE_IF condition if_branch else_branch =>
      child condition && child if_branch && child else_branch
  | NODE_TYPE_WHILE condition loop_body => child condition && child loop_body
  | NODE_TYPE_FUNC_CALL sym arguments =>
      known tbl sym && forallb child arguments
  end.

(** The initializer lines of a vector literal of numbers: one per number,
    a comma after each but the last. *)
Fixpoint number_lines (values : list float) : list string :=
  match values with
  | [] => []
  | v :: rest =>
      line 2 (snprintf 256 (fmt_f v)
              ++ match rest with [] => EmptyString | _ => "," end)
      :: number_lines rest
  end.

(** The declaration of a symbol. *)
Definition declaration (c : Symtab.Symbol) : string :=
  match Symtab.type c with
  | SCALAR => line 1 ("double " ++ Symtab.name c ++ " = 0.0;")
  | VECTOR => line 1 ("Vector " ++ Symtab.name c ++ " = { NULL, 0 };")
  | _ => line 1 ("// WARNING: Undefined symbol type for " ++ Symtab.name c)
  end.

(** The release of a vector symbol, and of the temporary of index [k]. *)
Definition release (c : Symtab.Symbol) : string :=
  line 1 ("vector_free_data(&" ++ Symtab.name c ++ ");").

Definition release_temporary (k : nat) : string :=
  line 1 ("vector_free_data(&_tv" ++ fmt_d (Z.of_nat k) ++ ");").

Definition is_vector_symbol (c : Symtab.Symbol) : bool :=
  Symtab.SymbolType_eqb (Symtab.type c) VECTOR.

(** How a generic call passes an argument: a vector as its data pointer and
    its length, a scalar as it is. *)
Definition arg_text (r : ExprResult) : string :=
  if is_vector r
  then snprintf 128 (code r ++ ".data, " ++ code r ++ ".size")
  else code r.

(** What the loop of [build_arg_str] would append from argument [i] on,
    were the buffer unbounded. *)
Fixpoint args_from (i : nat) (arg_results : list ExprResult) : string :=
  match arg_results with
  | [] => EmptyString
  | r :: rest =>
      (if 0 <? i then ", " else EmptyString) ++ arg_text r
      ++ args_from (S i) rest
  end.



(** The statics once [generate_code] has opened its file and reset the
    counter and the flag. *)
Definition reset (st : State) : State :=
  {| output_file := Some [];
     temp_var_counter := 0;
     codegen_error_occurred := false;
     stderr := stderr st;
     stdout := stdout st |}.

(** The end of [generate_code]: the file is closed and the outcome
    announced. *)
Definition close_and_announce (output_filename : string)
  : M (option (list string)) :=
  written <- get output_file ;;
  set_output_file None ;;
  failed <- get codegen_error_occurred ;;
  (if failed then
     fprintf_stderr
       ("Code generation failed due to semantic errors. Output file '"
        ++ output_filename ++ "' may be incomplete or incorrect." ++ nl)
   else
     printf ("Code generation complete: " ++ output_filename ++ nl)) ;;
  ret written.

End CodegenInvariants.

(* ------------------------------------------------------------------ *)
(** * Properties of the symbol table *)
(* ------------------------------------------------------------------ *)

Module SymtabFacts.

Import Symtab.

Lemma deref_cons (c : Symbol) (rest : table) (h : handle) :
  deref (c :: rest) h = if h =? List.length rest then Some c else deref rest h.
Proof.
  unfold deref. cbn [List.length].
  destruct (Nat.eqb_spec h (List.length rest)) as [-> | Hne].
  - replace (List.length rest <? S (List.length rest)) with true
      by (symmetry; apply Nat.ltb_lt; lia).
    replace (S (List.length rest) - 1 - List.length rest) with 0 by lia.
    reflexivity.
  - destruct (Nat.ltb_spec h (List.length rest)) as [Hlt | Hge].
    + replace (h <? S (List.length rest)) with true
        by (symmetry; apply Nat.ltb_lt; lia).
      replace (S (List.length rest) - 1 - h)
        with (S (List.length rest - 1 - h)) by lia.
      reflexivity.
    + replace (h <? S (List.length rest)) with false
        by (symmetry; apply Nat.ltb_ge; lia).
      reflexivity.
Qed.

Lemma deref_bound (tbl : table) (h : handle) (c : Symbol) :
  deref tbl h = Some c -> h < List.length tbl.
Proof.
  unfold deref. destruct (Nat.ltb_spec h (List.length tbl)); [easy | discriminate].
Qed.

Lemma store_length (tbl : table) (h : handle) (s : Symbol) :
  List.length (store tbl h s) = List.length tbl.
Proof.
  induction tbl as [| c rest IH]; cbn; [reflexivity |].
  destruct (h =? List.length rest); cbn; congruence.
Qed.

Lemma deref_store_same (tbl : table) (h : handle) (s : Symbol) :
  h < List.length tbl -> deref (store tbl h s) h = Some s.
Proof.
  induction tbl as [| c rest IH]; cbn [List.length store]; [lia |].
  intros Hlt. destruct (Nat.eqb_spec h (List.length rest)) as [-> | Hne].
  - rewrite deref_cons, Nat.eqb_refl. reflexivity.
  - rewrite deref_cons, store_length.
    destruct (Nat.eqb_spec h (List.length rest)); [contradiction |].
    apply IH. lia.
Qed.

Lemma deref_store_other (tbl : table) (h h' : handle) (s : Symbol) :
  h' <> h -> deref (store tbl h s) h' = deref tbl h'.
Proof.
  intros Hne. induction tbl as [| c rest IH]; cbn [store]; [reflexivity |].
  destruct (Nat.eqb_spec h (List.length rest)) as [-> | Hne'].
  - rewrite !deref_cons.
    destruct (Nat.eqb_spec h' (List.length rest)); [contradiction | reflexivity].
  - rewrite !deref_cons, store_length, IH. reflexivity.
Qed.

Lemma lookup_from_found (tbl : table) (nm : string) (h : handle) :
  lookup_from tbl nm = Some h ->
  exists c, deref tbl h = Some c /\ name c = nm.
Proof.
  induction tbl as [| c rest IH]; cbn [lookup_from]; [discriminate |].
  unfold Libc.streq. destruct (String.eqb_spec (name c) nm) as [Heq | Hne].
  - intros [= <-]. exists c. rewrite deref_cons, Nat.eqb_refl. auto.
  - intros Hl. destruct (IH Hl) as (c' & Hd & Hn). exists c'. split; [| exact Hn].
    rewrite deref_cons. pose proof (deref_bound _ _ _ Hd).
    destruct (Nat.eqb_spec h (List.length rest)); [lia | exact Hd].
Qed.

Lemma lookup_from_none (tbl : table) (nm : string) :
  lookup_from tbl nm = None <-> ~ In nm (map name tbl).
Proof.
  induction tbl as [| c rest IH]; cbn [lookup_from map In]; [tauto |].
  unfold Libc.streq. destruct (String.eqb_spec (name c) nm) as [Heq | Hne].
  - split; [discriminate | tauto].
  - rewrite IH. tauto.
Qed.

Lemma entries_named_absent (tbl : table) (nm : string) :
  ~ In nm (map name tbl) -> entries_named nm tbl = 0.
Proof.
  unfold entries_named.
  induction tbl as [| c rest IH]; cbn [map In filter]; [reflexivity |].
  intros Hn. unfold Libc.streq at 1.
  destruct (String.eqb_spec (name c) nm); [tauto |]. apply IH. tauto.
Qed.

Lemma entries_named_present (tbl : table) (nm : string) :
  distinct_names tbl -> In nm (map name tbl) -> entries_named nm tbl = 1.
Proof.
  unfold distinct_names.
  induction tbl as [| c rest IH]; cbn [map In]; [tauto |].
  intros Hnd Hin. inversion Hnd as [| x l Hnotin Hnd' ]; subst.
  unfold entries_named. cbn [filter]. unfold Libc.streq at 1.
  destruct (String.eqb_spec (name c) nm) as [Heq | Hne].
  - subst nm. cbn [List.length]. f_equal.
    apply (entries_named_absent rest (name c) Hnotin).
  - apply IH; [exact Hnd' | tauto].
Qed.

(** [symbol_insert] keeps the names of a table distinct. *)
Lemma symbol_insert_distinct (nm : string) (tbl tbl1 : table) (h : handle) :
  distinct_names tbl ->
  symbol_insert (Some nm) tbl = Some (h, tbl1) ->
  distinct_names tbl1.
Proof.
  unfold symbol_insert, symbol_lookup, distinct_names. intros Hnd.
  destruct (lookup_from tbl nm) eqn:Hl; intros [= <- <-]; [exact Hnd |].
  cbn [map name]. constructor; [| exact Hnd]. now apply lookup_from_none.
Qed.

(** C9.  Insertion is idempotent, for every name (the empty one included)
    and every table with one cell per name.  When the name is already in
    the table, [symbol_insert] returns the handle of the existing cell and
    the table is unchanged; otherwise the table gains exactly one cell, at
    its head, of kind Scalar and value 0.0, and the handle returned is that
    cell's.  Either way a second insertion of the name returns the same
    handle and changes nothing, and the table holds exactly one entry of
    that name. *)
Theorem symbol_insert_idempotent (nm : string) (tbl : table) :
  distinct_names tbl ->
  exists (h : handle) (tbl1 : table),
    symbol_insert (Some nm) tbl = Some (h, tbl1) /\
    (In nm (map name tbl) ->
       tbl1 = tbl /\ exists c, deref tbl h = Some c /\ name c = nm) /\
    (~ In nm (map name tbl) ->
       tbl1 = fresh_symbol nm :: tbl /\
       deref tbl1 h = Some (fresh_symbol nm)) /\
    symbol_insert (Some nm) tbl1 = Some (h, tbl1) /\
    entries_named nm tbl1 = 1.
Proof.
  intros Hnd. unfold symbol_insert at 1. unfold symbol_lookup.
  destruct (lookup_from tbl nm) as [h |] eqn:Hl.
  - exists h, tbl. destruct (lookup_from_found _ _ _ Hl) as (c & Hd & Hn).
    assert (Hin : In nm (map name tbl)).
    { destruct (in_dec string_dec nm (map name tbl)) as [Hi | Hni]; [exact Hi |].
      apply lookup_from_none in Hni. congruence. }
    split; [reflexivity |].
    split; [intros _; split; [reflexivity | exists c; auto] |].
    split; [intros Hni; contradiction |].
    split.
    + unfold symbol_insert, symbol_lookup. rewrite Hl. reflexivity.
    + now apply entries_named_present.
  - exists (List.length tbl), (fresh_symbol nm :: tbl).
    assert (Hni : ~ In nm (map name tbl)) by now apply lookup_from_none.
    assert (Hhead : lookup_from (fresh_symbol nm :: tbl) nm
                    = Some (List.length tbl)).
    { cbn [lookup_from fresh_symbol name]. unfold Libc.streq.
      rewrite String.eqb_refl. reflexivity. }
    split; [reflexivity |].
    split; [intros Hin; contradiction |].
    split.
    { intros _. split; [reflexivity |].
      rewrite deref_cons, Nat.eqb_refl. reflexivity. }
    split.
    + unfold symbol_insert, symbol_lookup. rewrite Hhead. reflexivity.
    + apply entries_named_present.
      * unfold distinct_names. cbn [map fresh_symbol name].
        constructor; assumption.
      * cbn [map fresh_symbol name In]. auto.
Qed.

(** Inserting [x], [y], then [x] again: the first handle comes back and
    the table keeps its two cells. *)
Example symbol_insert_twice :
  match symbol_insert (Some "x") [] with
  | Some (hx, t1) =>
      match symbol_insert (Some "y") t1 with
      | Some (hy, t2) =>
          symbol_insert (Some "x") t2 = Some (hx, t2)
          /\ hx <> hy /\ List.length t2 = 2
      | None => False
      end
  | None => False
  end.
Proof. cbn. repeat split. discriminate. Qed.

(** C10.  [symbol_set_vector] on a valid handle with length 0 or a NULL
    [data]: the cell becomes a Vector whose [data] is NULL and whose [size]
    is the length passed, whatever it is (so NULL data with a positive
    length leaves a positive [size] over no storage); nothing is copied and
    no other cell changes. *)
Theorem symbol_set_vector_without_data (tbl : table) (h : handle)
    (c : Symbol) (data : option (list float)) (size : nat) :
  deref tbl h = Some c ->
  size = 0 \/ data = None ->
  exists tbl',
    symbol_set_vector (Some h) data size tbl = Some tbl' /\
    deref tbl' h = Some {| name := name c; type := SYMBOL_TYPE_VECTOR;
                           value := vector_value None size |} /\
    (forall h', h' <> h -> deref tbl' h' = deref tbl h').
Proof.
  intros Hd Hcase. unfold symbol_set_vector. rewrite Hd.
  assert (Hname : name (free_symbol_value_data c) = name c).
  { unfold free_symbol_value_data.
    destruct (type c); try reflexivity.
    destruct (value c) as [v | [buf |] n]; reflexivity. }
  rewrite Hname.
  set (cell := {| name := name c; type := SYMBOL_TYPE_VECTOR;
                  value := vector_value None size |}).
  assert (Hres : match size, data with
                 | 0, _ | _, None => Some (store tbl h cell)
                 | _, Some buf =>
                     if size <=? List.length buf
                     then Some (store tbl h
                                  {| name := name c;
                                     type := SYMBOL_TYPE_VECTOR;
                                     value := vector_value
                                                (Some (firstn size buf))
                                                size |})
                     else None
                 end = Some (store tbl h cell)).
  { destruct Hcase as [-> | ->]; [reflexivity |]. destruct size; reflexivity. }
  exists (store tbl h cell). split; [exact Hres |]. split.
  - apply deref_store_same. eapply deref_bound; eassumption.
  - intros h' Hne. now apply deref_store_other.
Qed.

Lemma symbol_set_vector_without_data_witness :
  exists tbl',
    symbol_set_vector (Some 0) None 3 [fresh_symbol "v"] = Some tbl' /\
    deref tbl' 0 = Some {| name := "v"; type := SYMBOL_TYPE_VECTOR;
                           value := vector_value None 3 |} /\
    (forall h', h' <> 0 -> deref tbl' h' = deref [fresh_symbol "v"] h').
Proof.
  apply (symbol_set_vector_without_data [fresh_symbol "v"] 0
           (fresh_symbol "v") None 3).
  - reflexivity.
  - right. reflexivity.
Defined.

Lemma symbol_insert_idempotent_witness :
  exists (h : handle) (tbl1 : table),
    symbol_insert (Some "x") [fresh_symbol "y"] = Some (h, tbl1) /\
    (In "x" (map name [fresh_symbol "y"]) ->
       tbl1 = [fresh_symbol "y"] /\
       exists c, deref [fresh_symbol "y"] h = Some c /\ name c = "x") /\
    (~ In "x" (map name [fresh_symbol "y"]) ->
       tbl1 = fresh_symbol "x" :: [fresh_symbol "y"] /\
       deref tbl1 h = Some (fresh_symbol "x")) /\
    symbol_insert (Some "x") tbl1 = Some (h, tbl1) /\
    entries_named "x" tbl1 = 1.
Proof.
  apply (symbol_insert_idempotent "x" [fresh_symbol "y"]).
  unfold distinct_names. cbn. constructor; [intros [] | constructor].
Defined.

End SymtabFacts.

(* ------------------------------------------------------------------ *)
(** * Properties of the code generator *)
(* ------------------------------------------------------------------ *)

Module CodegenFacts.

Import Libc Ast Codegen.

(** Runs the translator of a goal [exists .., run = Some .. /\ ..] on its
    concrete input. *)
Ltac evaluate_run :=
  match goal with
  | |- context [?run = Some _] =>
      let r := fresh "run" in
      set (r := run); vm_compute in r; subst r
  end.

(** ** The primitives, as state transformers *)

Lemma bind_ok {A B} (m : M A) (k : A -> M B) (st st1 : State) (a : A) :
  m st = Some (a, st1) -> bind m k st = k a st1.
Proof. unfold bind. intros ->. reflexivity. Qed.

Lemma bind_abort {A B} (m : M A) (k : A -> M B) (st : State) :
  m st = None -> bind m k st = None.
Proof. unfold bind. intros ->. reflexivity. Qed.

Lemma emit_eq (i : nat) (text : string) (st : State) :
  emit i text st = Some (tt, emitted [line i text] st).
Proof. destruct st as [[w |] c e se so]; reflexivity. Qed.

Lemma report_eq (message : string) (st : State) :
  report_codegen_error message st = Some (tt, reported message st).
Proof. destruct st; reflexivity. Qed.

Lemma new_temp_vector_var_eq (st : State) :
  new_temp_vector_var st
  = Some (snprintf 16 ("_tv" ++ fmt_d (temp_var_counter st)), bumped st).
Proof. destruct st; reflexivity. Qed.

Lemma new_temp_scalar_var_eq (st : State) :
  new_temp_scalar_var st
  = Some (snprintf 16 ("_ts" ++ fmt_d (temp_var_counter st)), bumped st).
Proof. destruct st; reflexivity. Qed.

Lemma emitted_nil (st : State) : emitted [] st = st.
Proof.
  destruct st as [[w |] c e se so]; unfold emitted; cbn;
    [rewrite app_nil_r |]; reflexivity.
Qed.

Lemma emitted_emitted (l1 l2 : list string) (st : State) :
  emitted l2 (emitted l1 st) = emitted (l1 ++ l2) st.
Proof.
  destruct st as [[w |] c e se so]; unfold emitted; cbn;
    [rewrite app_assoc |]; reflexivity.
Qed.

Lemma SymbolType_eqb_eq (a b : Symtab.SymbolType) :
  Symtab.SymbolType_eqb a b = true <-> a = b.
Proof. destruct a, b; cbn; split; congruence. Qed.

(** Membership in what was written, by search. *)
Lemma written_line (l : string) (written : list string) :
  existsb (String.eqb l) written = true -> In l written.
Proof.
  intros H. apply existsb_exists in H. destruct H as (x & Hin & Heq).
  apply String.eqb_eq in Heq. now subst x.
Qed.

(** ** The equations of the two translators *)

Section Equations.

Variable tbl : Symtab.table.

Lemma generate_expression_vector (items : list (option ASTNode)) :
  generate_expression tbl (Some (NODE_TYPE_VECTOR items))
  = (temp_vec_var_name <- new_temp_vector_var ;;
     let temp_array_name :=
       snprintf 64 (temp_vec_var_name ++ "_init_data") in
     emit 1 ("// Generating vector literal for " ++ temp_vec_var_name) ;;
     emit 1 ("double " ++ temp_array_name ++ "[] = {") ;;
     vector_elements_loop (generate_expression tbl) items ;;
     emit 1 "};" ;;
     emit 1 ("vector_assign(&" ++ temp_vec_var_name ++ ", (Vector){ "
             ++ temp_array_name ++ ", "
             ++ fmt_d (Z.of_nat (List.length items)) ++ " });") ;;
     ret {| code := temp_vec_var_name; type := VECTOR;
            is_temporary := false |}).
Proof. reflexivity. Qed.

Lemma generate_expression_binary_op (op : ascii)
    (lhs rhs : option ASTNode) :
  generate_expression tbl (Some (NODE_TYPE_BINARY_OP op lhs rhs))
  = (left_res <- generate_expression tbl lhs ;;
     right_res <- generate_expression tbl rhs ;;
     binary_op_dispatch op left_res right_res).
Proof. reflexivity. Qed.

Lemma generate_expression_unary_op (op : ascii) (operand : option ASTNode) :
  generate_expression tbl (Some (NODE_TYPE_UNARY_OP op operand))
  = (left_res <- generate_expression tbl operand ;;
     unary_op_dispatch op left_res).
Proof. reflexivity. Qed.

Lemma generate_expression_func_call (function_symbol : option Symtab.handle)
    (arguments : list (option ASTNode)) :
  generate_expression tbl (Some (NODE_TYPE_FUNC_CALL function_symbol arguments))
  = (fsym <- symbol_of tbl function_symbol ;;
     emit 1 ("// Generating function call: " ++ Symtab.name fsym ++ "()") ;;
     if streq (Symtab.name fsym) "read_vector"
     then read_vector_call (List.length arguments)
     else
       arg_results <- arguments_loop (generate_expression tbl) arguments ;;
       if streq (Symtab.name fsym) "scatter_plot"
       then scatter_plot_call arg_results
       else generic_call (Symtab.name fsym) arg_results).
Proof. reflexivity. Qed.



Lemma unless_failed_clear (body : M unit) (st : State) :
  codegen_error_occurred st = false -> unless_failed body st = body st.
Proof. intros H. unfold unless_failed, bind, get. rewrite H. reflexivity. Qed.

Lemma generate_statement_list_eq (items : list (option ASTNode)) :
  generate_statement tbl (Some (NODE_TYPE_STATEMENT_LIST items))
  = unless_failed
      (emit 1 "{ // Start block" ;;
       statements_loop (generate_statement tbl) items ;;
       emit 1 "} // End block").
Proof. reflexivity. Qed.

Lemma generate_statement_assignment_eq
    (target_symbol : option Symtab.handle) (expression : option ASTNode) :
  generate_statement tbl (Some (NODE_TYPE_ASSIGNMENT target_symbol expression))
  = unless_failed
      (target_sym <- symbol_of tbl target_symbol ;;
       emit 1 ("// Assignment to " ++ Symtab.name target_sym ++ " (Type: "
               ++ fmt_d (Symtab.SymbolType_int (Symtab.type target_sym))
               ++ ")") ;;
       expr_res <- generate_expression tbl expression ;;
       failed <- get codegen_error_occurred ;;
       if failed then ret tt
       else assignment_check target_sym expr_res).
Proof. reflexivity. Qed.

Lemma generate_statement_if_eq (condition if_branch else_branch
                                : option ASTNode) :
  generate_statement tbl (Some (NODE_TYPE_IF condition if_branch else_branch))
  = unless_failed
      (emit 1 "// If statement" ;;
       expr_res <- generate_expression tbl condition ;;
       failed <- get codegen_error_occurred ;;
       if failed then emit 1 "if (0) { // Type error in condition"
       else
         (if negb (is_scalar expr_res) then
            report_codegen_error
              "Non-scalar condition used for IF statement." ;;
            emit 1 "if (0) { // Type error in condition"
          else emit 1 ("if ((" ++ code expr_res ++ ") != 0.0) {")) ;;
         generate_statement tbl if_branch ;;
         emit 1 "}" ;;
         match else_branch with
         | Some _ =>
             emit 1 "else {" ;;
             generate_statement tbl else_branch ;;
             emit 1 "}"
         | None => ret tt
         end).
Proof. reflexivity. Qed.

Lemma generate_statement_while_eq (condition loop_body : option ASTNode) :
  generate_statement tbl (Some (NODE_TYPE_WHILE condition loop_body))
  = unless_failed
      (emit 1 "// While loop" ;;
       expr_res <- generate_expression tbl condition ;;
       failed <- get codegen_error_occurred ;;
       if failed then emit 1 "while (0) { // Type error in condition"
       else
         (if negb (is_scalar expr_res) then
            report_codegen_error
              "Non-scalar condition used for WHILE statement." ;;
            emit 1 "while (0) { // Type error in condition"
          else emit 1 ("while ((" ++ code expr_res ++ ") != 0.0) {")) ;;
         generate_statement tbl loop_body ;;
         emit 1 "} // End while").
Proof. reflexivity. Qed.

(** The six expression kinds, and the kind no case handles. *)
Lemma generate_statement_other_eq (node : ASTNode) :
  match node with
  | NODE_TYPE_STATEMENT_LIST _ | NODE_TYPE_ASSIGNMENT _ _
  | NODE_TYPE_IF _ _ _ | NODE_TYPE_WHILE _ _ => True
  | NODE_TYPE_UNKNOWN =>
      generate_statement tbl (Some node)
      = unless_failed
          (emit 1 ("// Statement generation not implemented for node type "
                   ++ fmt_d (NodeType_int node)))
  | _ =>
      generate_statement tbl (Some node)
      = unless_failed (expression_statement tbl node)
  end.
Proof. destruct node; first [exact I | reflexivity]. Qed.

Lemma generate_statement_failed (node : option ASTNode) (st : State) :
  codegen_error_occurred st = true ->
  generate_statement tbl node st = Some (tt, st).
Proof.
  intros Hfailed. destruct node as [n |]; [| reflexivity].
  pose proof (generate_statement_other_eq n) as Hother.
  destruct n;
    first [ rewrite generate_statement_list_eq
          | rewrite generate_statement_assignment_eq
          | rewrite generate_statement_if_eq
          | rewrite generate_statement_while_eq
          | rewrite Hother ];
    unfold unless_failed, bind, get; rewrite Hfailed; reflexivity.
Qed.

Lemma statements_loop_failed (items : list (option ASTNode)) (st : State) :
  codegen_error_occurred st = true ->
  statements_loop (generate_statement tbl) items st = Some (tt, st).
Proof.
  intros Hfailed. induction items as [| item rest IH]; [reflexivity |].
  cbn [statements_loop].
  rewrite (bind_ok _ _ _ _ _ (generate_statement_failed item st Hfailed)).
  exact IH.
Qed.

Lemma statements_loop_app (pre post : list (option ASTNode)) (st : State) :
  statements_loop (generate_statement tbl) (pre ++ post)%list st
  = (statements_loop (generate_statement tbl) pre ;;
     statements_loop (generate_statement tbl) post) st.
Proof.
  revert st. induction pre as [| item rest IH]; intros st; [reflexivity |].
  cbn [statements_loop app]. unfold bind in *.
  destruct (generate_statement tbl item st) as [[[] st1] |]; [| reflexivity].
  apply IH.
Qed.

End Equations.

(** ** Statement translation once an error is recorded *)

(** C8.  Entered with the error flag set, the statement translator returns
    at once: it emits nothing and leaves the statics, what was written
    before the error included, as they are. *)
Theorem generate_statement_skips_when_failed (tbl : Symtab.table)
    (node : option ASTNode) (st : State) :
  codegen_error_occurred st = true ->
  generate_statement tbl node st = Some (tt, st).
Proof.
  intros Hfailed. destruct node as [n |].
  - (* a node: the test of the flag comes before the switch on its kind *)
    pose proof (generate_statement_other_eq tbl n) as Hother.
    destruct n;
      first [ rewrite generate_statement_list_eq
            | rewrite generate_statement_assignment_eq
            | rewrite generate_statement_if_eq
            | rewrite generate_statement_while_eq
            | rewrite Hother ];
      unfold unless_failed, bind, get; rewrite Hfailed; reflexivity.
  - (* NULL: returns before the test *)
    reflexivity.
Qed.

Lemma generate_statement_skips_when_failed_witness :
  generate_statement example_table (Some stmt_vector_to_scalar)
    (reported "earlier" (emitted [line 1 "x = 1.000000;"] started))
  = Some (tt, reported "earlier" (emitted [line 1 "x = 1.000000;"] started)).
Proof.
  apply (generate_statement_skips_when_failed example_table
           (Some stmt_vector_to_scalar)
           (reported "earlier" (emitted [line 1 "x = 1.000000;"] started))).
  reflexivity.
Defined.

(** C2, as the code has it, for the statements after the failing one.
    Once the walk over the first statements of a block has recorded a
    semantic error, the statements after them are skipped: the block ends
    in the state the failing statement left, with only the closing marker
    added, so nothing is emitted and no diagnostic is reported for a later
    statement.  Nothing is said here of the failing statement itself, whose
    expression is translated to its end
    ([errors_inside_one_statement_both_reported]). *)
Theorem statements_after_error_skipped (tbl : Symtab.table)
    (pre post : list (option ASTNode)) (st st1 : State) :
  codegen_error_occurred st = false ->
  statements_loop (generate_statement tbl) pre
    (emitted [line 1 "{ // Start block"] st) = Some (tt, st1) ->
  codegen_error_occurred st1 = true ->
  generate_statement tbl (Some (NODE_TYPE_STATEMENT_LIST (pre ++ post)%list)) st
  = Some (tt, emitted [line 1 "} // End block"] st1).
Proof.
  intros Hclear Hpre Hfailed.
  rewrite generate_statement_list_eq, unless_failed_clear by exact Hclear.
  rewrite (bind_ok _ _ _ _ _ (emit_eq _ _ _)).
  assert (Hwalk : statements_loop (generate_statement tbl) (pre ++ post)%list
                    (emitted [line 1 "{ // Start block"] st)
                  = Some (tt, st1)).
  { rewrite statements_loop_app, (bind_ok _ _ _ _ _ Hpre).
    now apply statements_loop_failed. }
  rewrite (bind_ok _ _ _ _ _ Hwalk). apply emit_eq.
Qed.

Lemma statements_after_error_skipped_witness :
  generate_statement example_table
    (Some (NODE_TYPE_STATEMENT_LIST
             ([Some stmt_negate_vector] ++ [Some stmt_vector_to_scalar])))
    started
  = Some (tt,
          emitted [line 1 "} // End block"]
            (reported
               "Unsupported unary operation '-' or type mismatch (Type: 2)."
               (emitted [line 1 "{ // Start block";
                         line 1 "// Assignment to x (Type: 1)"] started))).
Proof.
  apply (statements_after_error_skipped example_table
           [Some stmt_negate_vector] [Some stmt_vector_to_scalar] started);
    reflexivity.
Defined.

(** C2, as stated, fails on [{ x = -v; x = v; }]: the second statement on
    its own is reported as a type mismatch, and in the pass over both only
    the error of the first is reported. *)
Lemma second_error_not_reported :
  (exists st2,
     generate_statement example_table (Some stmt_vector_to_scalar) started
     = Some (tt, st2) /\
     stderr st2
     = ["Semantic Error: Type mismatch in assignment to 'x' "
        ++ "(Target: 1, RHS: 2)" ++ nl]) /\
  (exists st',
     generate_statement example_table
       (Some (NODE_TYPE_STATEMENT_LIST
                [Some stmt_negate_vector; Some stmt_vector_to_scalar]))
       started
     = Some (tt, st') /\
     stderr st'
     = ["Semantic Error: Unsupported unary operation '-' or type mismatch "
        ++ "(Type: 2)." ++ nl] /\
     ~ In ("Semantic Error: Type mismatch in assignment to 'x' "
           ++ "(Target: 1, RHS: 2)" ++ nl) (stderr st')).
Proof.
  split.
  - evaluate_run. eexists. split; reflexivity.
  - evaluate_run. eexists. split; [reflexivity |]. split; [reflexivity |].
    cbn. intros [H | []]. discriminate H.
Qed.

(** The guard is on statements only: [generate_expression] never tests the
    flag.  In [x = (x - v) + (x - w);] both operands are reported and the
    sum of the two placeholders is still emitted; the assignment alone is
    abandoned. *)
Example errors_inside_one_statement_both_reported :
  generate_statement example_table (Some stmt_two_errors) started
  = Some (tt,
          emitted [line 1 "_ts0 = (0.0) + (0.0);"]
            (bumped
               (reported
                  "Unsupported binary operation '-' between scalar and vector."
                  (reported
                     "Unsupported binary operation '-' between scalar and vector."
                     (emitted [line 1 "// Assignment to x (Type: 1)"]
                        started))))).
Proof. reflexivity. Qed.

(** ** Vector literals *)

(** A non-scalar element costs a placeholder line and nothing else: the
    loop goes on from the state the element left, the flag and [stderr]
    untouched. *)
Lemma non_scalar_element_placeholder (tbl : Symtab.table)
    (item : option ASTNode) (rest : list (option ASTNode))
    (st st1 : State) (elem_res : ExprResult) :
  generate_expression tbl item st = Some (elem_res, st1) ->
  type elem_res <> SCALAR ->
  vector_elements_loop (generate_expression tbl) (item :: rest) st
  = vector_elements_loop (generate_expression tbl) rest
      (emitted
         [line 2 ("/* WARNING: Non-scalar in vector literal */ 0.0"
                  ++ match rest with [] => EmptyString | _ => "," end)]
         st1).
Proof.
  intros Hitem Hkind. cbn [vector_elements_loop].
  rewrite (bind_ok _ _ _ _ _ Hitem).
  assert (His : is_scalar elem_res = false).
  { unfold is_scalar. destruct (Symtab.SymbolType_eqb (type elem_res) SCALAR) eqn:E;
      [apply SymbolType_eqb_eq in E; contradiction | reflexivity]. }
  rewrite His. cbn [negb].
  rewrite (bind_ok _ _ _ _ _ (emit_eq _ _ _)). reflexivity.
Qed.

(** C1 on [[v]] with [v] a vector: the placeholder is emitted, and no
    semantic error is recorded: the flag stays clear and [stderr] empty. *)
Theorem vector_element_error_not_recorded :
  generate_expression example_table (Some expr_vector_of_vector) started
  = Some ({| code := "_tv0"; type := VECTOR; is_temporary := false |},
          {| output_file :=
               Some [ line 1 "// Generating vector literal for _tv0";
                      line 1 "double _tv0_init_data[] = {";
                      line 2 "/* WARNING: Non-scalar in vector literal */ 0.0";
                      line 1 "};";
                      line 1 ("vector_assign(&_tv0, (Vector){ "
                              ++ "_tv0_init_data, 1 });") ];
             temp_var_counter := 1;
             codegen_error_occurred := false;
             stderr := [];
             stdout := [] |}).
Proof. reflexivity. Qed.

(** ** Broadcast addition *)

(** C3, as the code has it.  For [+] on a Vector and a Scalar, in either
    order, a vector temporary is taken and one call of the broadcast helper
    is emitted whose first argument is the vector operand and whose second
    is the scalar operand: source order for Vector + Scalar, the reverse of
    it for Scalar + Vector. *)
Theorem broadcast_add_vector_operand_first (tbl : Symtab.table)
    (lhs rhs : option ASTNode) (st st1 st2 : State)
    (left_res right_res : ExprResult) :
  generate_expression tbl lhs st = Some (left_res, st1) ->
  generate_expression tbl rhs st1 = Some (right_res, st2) ->
  (type left_res = VECTOR /\ type right_res = SCALAR)
  \/ (type left_res = SCALAR /\ type right_res = VECTOR) ->
  let temp := snprintf 16 ("_tv" ++ fmt_d (temp_var_counter st2)) in
  let vector_code :=
    if is_vector left_res then code left_res else code right_res in
  let scalar_code :=
    if is_vector left_res then code right_res else code left_res in
  generate_expression tbl (Some (NODE_TYPE_BINARY_OP "+" lhs rhs)) st
  = Some ({| code := temp; type := VECTOR; is_temporary := false |},
          emitted [line 1 (temp ++ " = vector_add_scalar(" ++ vector_code
                           ++ ", " ++ scalar_code ++ ");")]
            (bumped st2)).
Proof.
  intros Hl Hr Hkinds. cbv zeta.
  rewrite generate_expression_binary_op.
  rewrite (bind_ok _ _ _ _ _ Hl), (bind_ok _ _ _ _ _ Hr).
  unfold binary_op_dispatch, is_scalar, is_vector.
  change (Ascii.eqb "+" "+") with true.
  destruct Hkinds as [[-> ->] | [-> ->]]; cbn [Symtab.SymbolType_eqb andb orb];
    destruct st2 as [[written |] c e se so]; reflexivity.
Qed.

Lemma broadcast_add_vector_operand_first_witness :
  generate_expression example_table (Some expr_scalar_plus_vector) started
  = Some ({| code := "_tv0"; type := VECTOR; is_temporary := false |},
          emitted [line 1 "_tv0 = vector_add_scalar(v, 5.000000);"]
            (bumped started)).
Proof.
  apply (broadcast_add_vector_operand_first example_table
           (Some (NODE_TYPE_NUMBER 5%float))
           (Some (NODE_TYPE_IDENTIFIER (Some 1)))
           started started started
           {| code := "5.000000"; type := SCALAR; is_temporary := true |}
           {| code := "v"; type := VECTOR; is_temporary := true |}).
  - reflexivity.
  - reflexivity.
  - right. split; reflexivity.
Defined.

(** [v + 5]: here the operands do come in source order. *)
Example vector_plus_scalar_in_source_order :
  generate_expression example_table
    (Some (NODE_TYPE_BINARY_OP "+" (Some (NODE_TYPE_IDENTIFIER (Some 1)))
             (Some (NODE_TYPE_NUMBER 5%float))))
    started
  = Some ({| code := "_tv0"; type := VECTOR; is_temporary := false |},
          emitted [line 1 "_tv0 = vector_add_scalar(v, 5.000000);"]
            (bumped started)).
Proof. reflexivity. Qed.

(** C3, as stated, fails on [5 + v]: the call emitted passes [v] first and
    [5.000000] second, not the operands in source order. *)
Lemma scalar_plus_vector_not_in_source_order :
  exists r st',
    generate_expression example_table (Some expr_scalar_plus_vector) started
    = Some (r, st') /\
    output_file st' = Some [line 1 "_tv0 = vector_add_scalar(v, 5.000000);"] /\
    output_file st' <> Some [line 1 "_tv0 = vector_add_scalar(5.000000, v);"].
Proof.
  evaluate_run. eexists. eexists. split; [reflexivity |].
  split; [reflexivity |]. cbn. discriminate.
Qed.

(** ** The rendering of numbers *)

Example fmt_f_rounds_to_six_decimals :
  fmt_f 1.5%float = "1.500000"
  /\ fmt_f 0.125%float = "0.125000"
  /\ fmt_f (-2)%float = "-2.000000"
  /\ fmt_f 0x1p-20%float = "0.000001"
  /\ fmt_f 0x1p-22%float = "0.000000"
  /\ fmt_f 0%float = "0.000000".
Proof. repeat split; vm_compute; reflexivity. Qed.

Example temporary_names :
  new_temp_scalar_var started = Some ("_ts0", bumped started)
  /\ new_temp_vector_var (bumped started)
     = Some ("_tv1", bumped (bumped started)).
Proof. split; reflexivity. Qed.

(** ** The argument string of a generic call *)

Lemma length_append (a b : string) :
  String.length (a ++ b) = String.length a + String.length b.
Proof. induction a as [| c a IH]; cbn; [reflexivity | now rewrite IH]. Qed.

Lemma substring_prefix_length (n : nat) :
  forall s, String.length (substring 0 n s) <= n.
Proof.
  induction n as [| n IH]; intros [| c s]; cbn; try lia.
  specialize (IH s). lia.
Qed.

Lemma strncat_fits (capacity : nat) (dst src : string) :
  String.length dst <= capacity - 1 ->
  String.length (strncat dst src (capacity - String.length dst - 1))
  <= capacity - 1.
Proof.
  intros Hdst. unfold strncat. rewrite length_append.
  pose proof (substring_prefix_length
                (capacity - String.length dst - 1) src).
  lia.
Qed.

(** [arg_str] stays within its buffer, so the count handed to [strncat],
    [arg_str_capacity - strlen(arg_str) - 1], never wraps below zero. *)
Lemma build_arg_str_fits (capacity : nat) (arg_results : list ExprResult) :
  forall (arg_str : string) (i : nat),
    String.length arg_str <= capacity - 1 ->
    String.length (build_arg_str capacity arg_str i arg_results)
    <= capacity - 1.
Proof.
  induction arg_results as [| r rest IH]; intros arg_str i Hfit;
    cbn [build_arg_str]; [exact Hfit |].
  apply IH.
  assert (Hsep : String.length
                   (if 0 <? i
                    then strncat arg_str ", "
                           (capacity - String.length arg_str - 1)
                    else arg_str) <= capacity - 1).
  { destruct (0 <? i); [now apply strncat_fits | exact Hfit]. }
  destruct (is_vector r); now apply strncat_fits.
Qed.

(** ** Assignments *)

(** C5, as the code has it.  An assignment entered with the flag clear
    translates its right-hand side first.  If that recorded a semantic
    error the statement is abandoned there: no assignment is emitted and no
    type mismatch is reported.  Otherwise, a Scalar target with a Scalar
    value gets a direct assignment, a Vector target with a Vector value a
    [vector_assign] call, and kinds that differ get a type-mismatch error
    and no assignment. *)
Theorem assignment_kind_check (tbl : Symtab.table) (h : Symtab.handle)
    (target : Symtab.Symbol) (expression : option ASTNode)
    (st st1 : State) (expr_res : ExprResult) :
  codegen_error_occurred st = false ->
  Symtab.deref tbl h = Some target ->
  generate_expression tbl expression
    (emitted [line 1 ("// Assignment to " ++ Symtab.name target
                      ++ " (Type: "
                      ++ fmt_d (Symtab.SymbolType_int (Symtab.type target))
                      ++ ")")] st)
  = Some (expr_res, st1) ->
  let run :=
    generate_statement tbl
      (Some (NODE_TYPE_ASSIGNMENT (Some h) expression)) st in
  let rhs_type :=
    line 1 ("// RHS Type: "
            ++ fmt_d (Symtab.SymbolType_int (type expr_res))) in
  (codegen_error_occurred st1 = true -> run = Some (tt, st1)) /\
  (codegen_error_occurred st1 = false ->
   (Symtab.type target = SCALAR -> type expr_res = SCALAR ->
    run = Some (tt, emitted [rhs_type;
                             line 1 (Symtab.name target ++ " = "
                                     ++ code expr_res ++ ";")] st1)) /\
   (Symtab.type target = VECTOR -> type expr_res = VECTOR ->
    run = Some (tt, emitted [rhs_type;
                             line 1 ("vector_assign(&" ++ Symtab.name target
                                     ++ ", " ++ code expr_res ++ ");")]
                      st1)) /\
   (Symtab.type target <> type expr_res ->
    run = Some (tt,
                reported
                  ("Type mismatch in assignment to '" ++ Symtab.name target
                   ++ "' (Target: "
                   ++ fmt_d (Symtab.SymbolType_int (Symtab.type target))
                   ++ ", RHS: "
                   ++ fmt_d (Symtab.SymbolType_int (type expr_res)) ++ ")")
                  (emitted [rhs_type] st1)))).
Proof.
  intros Hclear Htarget Hrhs run. cbv zeta.
  assert (Hsym : symbol_of tbl (Some h) st = Some (target, st)).
  { cbn. rewrite Htarget. reflexivity. }
  assert (Hrun : run = (if codegen_error_occurred st1 then ret tt
                        else assignment_check target expr_res) st1).
  { unfold run.
    rewrite generate_statement_assignment_eq, unless_failed_clear
      by exact Hclear.
    rewrite (bind_ok _ _ _ _ _ Hsym), (bind_ok _ _ _ _ _ (emit_eq _ _ _)).
    rewrite (bind_ok _ _ _ _ _ Hrhs). reflexivity. }
  rewrite Hrun. clear Hrun run.
  split.
  - intros ->. reflexivity.
  - intros ->. unfold assignment_check.
    rewrite (bind_ok _ _ _ _ _ (emit_eq _ _ _)).
    unfold is_scalar, is_vector. repeat split.
    + intros -> ->. cbn [Symtab.SymbolType_eqb andb orb negb].
      rewrite emit_eq, emitted_emitted. reflexivity.
    + intros -> ->. cbn [Symtab.SymbolType_eqb andb orb negb].
      rewrite emit_eq, emitted_emitted. reflexivity.
    + intros Hdiff.
      assert (Hcheck :
                negb ((Symtab.SymbolType_eqb (Symtab.type target) SCALAR
                       && Symtab.SymbolType_eqb (type expr_res) SCALAR)
                      || (Symtab.SymbolType_eqb (Symtab.type target) VECTOR
                          && Symtab.SymbolType_eqb (type expr_res) VECTOR))
                = true).
      { destruct (Symtab.type target), (type expr_res);
          try reflexivity; now contradiction Hdiff. }
      rewrite Hcheck. apply report_eq.
Qed.

Lemma assignment_kind_check_witness :
  generate_statement example_table (Some stmt_vector_to_scalar) started
  = Some (tt,
          reported "Type mismatch in assignment to 'x' (Target: 1, RHS: 2)"
            (emitted [line 1 "// Assignment to x (Type: 1)";
                      line 1 "// RHS Type: 2"] started)).
Proof.
  refine (proj2 (proj2 (proj2
            (assignment_kind_check example_table 0
               {| Symtab.name := "x"; Symtab.type := SCALAR;
                  Symtab.value := Symtab.scalar_value 0%float |}
               (Some (NODE_TYPE_IDENTIFIER (Some 1)))
               started
               (emitted [line 1 "// Assignment to x (Type: 1)"] started)
               {| code := "v"; type := VECTOR; is_temporary := true |}
               eq_refl eq_refl eq_refl) eq_refl)) _).
  cbn. discriminate.
Defined.

(** [x = 5;] and [v = w;]: the two assignments that are emitted. *)
Example scalar_assignment_emitted :
  generate_statement example_table
    (Some (NODE_TYPE_ASSIGNMENT (Some 0) (Some (NODE_TYPE_NUMBER 5%float))))
    started
  = Some (tt, emitted [line 1 "// Assignment to x (Type: 1)";
                       line 1 "// RHS Type: 1";
                       line 1 "x = 5.000000;"] started).
Proof. reflexivity. Qed.

Example vector_assignment_emitted :
  generate_statement example_table
    (Some (NODE_TYPE_ASSIGNMENT (Some 1)
             (Some (NODE_TYPE_IDENTIFIER (Some 2)))))
    started
  = Some (tt, emitted [line 1 "// Assignment to v (Type: 2)";
                       line 1 "// RHS Type: 2";
                       line 1 "vector_assign(&v, w);"] started).
Proof. reflexivity. Qed.

(** C5, as stated, fails on [x = -v;]: the value resolves to Scalar, the
    kind of [x], and no assignment to [x] is emitted, the negation of a
    vector having recorded an error. *)
Lemma equal_kinds_assignment_not_emitted :
  exists expr_res st1 st',
    generate_expression example_table
      (Some (NODE_TYPE_UNARY_OP "-" (Some (NODE_TYPE_IDENTIFIER (Some 1)))))
      (emitted [line 1 "// Assignment to x (Type: 1)"] started)
    = Some (expr_res, st1) /\
    type expr_res = SCALAR /\
    Symtab.deref example_table 0
    = Some {| Symtab.name := "x"; Symtab.type := SCALAR;
              Symtab.value := Symtab.scalar_value 0%float |} /\
    generate_statement example_table (Some stmt_negate_vector) started
    = Some (tt, st') /\
    output_file st' = Some [line 1 "// Assignment to x (Type: 1)"] /\
    ~ In (line 1 ("x = " ++ code expr_res ++ ";"))
         [line 1 "// Assignment to x (Type: 1)"].
Proof.
  do 3 eexists. split; [vm_compute; reflexivity |].
  split; [reflexivity |]. split; [reflexivity |].
  split; [vm_compute; reflexivity |]. split; [reflexivity |].
  cbn. intros [H | []]. discriminate H.
Qed.

(** ** Calls of scatter_plot *)

Lemma arguments_loop_length (tbl : Symtab.table)
    (items : list (option ASTNode)) :
  forall (st st1 : State) (arg_results : list ExprResult),
    arguments_loop (generate_expression tbl) items st
    = Some (arg_results, st1) ->
    List.length arg_results = List.length items.
Proof.
  induction items as [| item rest IH]; intros st st1 rs; cbn [arguments_loop].
  - intros [= <- _]. reflexivity.
  - unfold bind at 1.
    destruct (generate_expression tbl item st) as [[r st2] |]; [| discriminate].
    unfold bind at 1.
    destruct (arguments_loop (generate_expression tbl) rest st2)
      as [[rs' st3] |] eqn:Hrest; [| discriminate].
    intros [= <- _]. cbn [List.length]. f_equal. eapply IH. exact Hrest.
Qed.

Lemma two_vectors_spec (arg_results : list ExprResult) :
  two_vectors arg_results = true <->
  exists a0 a1, arg_results = [a0; a1]
                /\ type a0 = VECTOR /\ type a1 = VECTOR.
Proof.
  unfold two_vectors, is_vector. split.
  - destruct arg_results as [| a0 [| a1 [| a2 rest]]]; try discriminate.
    intros H. apply andb_true_iff in H. destruct H as [H0 H1].
    apply SymbolType_eqb_eq in H0. apply SymbolType_eqb_eq in H1.
    exists a0, a1. auto.
  - intros (a0 & a1 & -> & -> & ->). reflexivity.
Qed.

(** C6.  A call of [scatter_plot], once its arguments are translated: if
    there are not exactly two arguments, or one of them does not resolve to
    Vector, a semantic error is recorded and the output stays as the
    arguments left it, with no call of the plotting entry point; if there
    are two and both are vectors, exactly one call of [c_scatter_plot] is
    emitted, passing the data pointer and the length of each. *)
Theorem scatter_plot_call_checked (tbl : Symtab.table) (h : Symtab.handle)
    (fsym : Symtab.Symbol) (arguments : list (option ASTNode))
    (st st1 : State) (arg_results : list ExprResult) :
  Symtab.deref tbl h = Some fsym ->
  Symtab.name fsym = "scatter_plot" ->
  arguments_loop (generate_expression tbl) arguments
    (emitted [line 1 "// Generating function call: scatter_plot()"] st)
  = Some (arg_results, st1) ->
  let run :=
    generate_expression tbl
      (Some (NODE_TYPE_FUNC_CALL (Some h) arguments)) st in
  List.length arg_results = List.length arguments /\
  (List.length arguments <> 2
   \/ (exists r, In r arg_results /\ type r <> VECTOR) ->
   run = Some ({| code := "/* invalid scatter_plot call */"; type := SCALAR;
                  is_temporary := true |},
               reported "scatter_plot() expects 2 vector arguments." st1)) /\
  (forall a0 a1,
     arg_results = [a0; a1] -> type a0 = VECTOR -> type a1 = VECTOR ->
     run = Some ({| code := "/* scatter_plot call */"; type := SCALAR;
                    is_temporary := true |},
                 emitted [line 1 ("c_scatter_plot(" ++ code a0 ++ ".data, "
                                  ++ code a0 ++ ".size, " ++ code a1
                                  ++ ".data, " ++ code a1 ++ ".size);")]
                   st1)).
Proof.
  intros Hsym Hname Hargs run. cbv zeta.
  pose proof (arguments_loop_length _ _ _ _ _ Hargs) as Hlen.
  split; [exact Hlen |].
  assert (Hf : symbol_of tbl (Some h) st = Some (fsym, st)).
  { cbn. rewrite Hsym. reflexivity. }
  assert (Hrun : run = scatter_plot_call arg_results st1).
  { unfold run. rewrite generate_expression_func_call.
    rewrite (bind_ok _ _ _ _ _ Hf), Hname.
    rewrite (bind_ok _ _ _ _ _ (emit_eq _ _ _)).
    change (streq "scatter_plot" "read_vector") with false.
    change (streq "scatter_plot" "scatter_plot") with true.
    cbv iota. rewrite (bind_ok _ _ _ _ _ Hargs). reflexivity. }
  rewrite Hrun. clear Hrun run.
  unfold scatter_plot_call. split.
  - intros Hbad.
    assert (Hcheck : two_vectors arg_results = false).
    { destruct (two_vectors arg_results) eqn:E; [| reflexivity].
      apply two_vectors_spec in E. destruct E as (a0 & a1 & -> & H0 & H1).
      destruct Hbad as [Hcount | (r & Hin & Hkind)].
      - cbn in Hlen. congruence.
      - destruct Hin as [<- | [<- | []]]; contradiction. }
    rewrite Hcheck. rewrite (bind_ok _ _ _ _ _ (report_eq _ _)). reflexivity.
  - intros a0 a1 -> H0 H1.
    assert (Hcheck : two_vectors [a0; a1] = true).
    { apply two_vectors_spec. exists a0, a1. auto. }
    rewrite Hcheck. cbn [nth].
    rewrite (bind_ok _ _ _ _ _ (emit_eq _ _ _)). reflexivity.
Qed.

Lemma scatter_plot_call_checked_witness :
  generate_expression example_table (Some expr_scatter_plot_vectors) started
  = Some ({| code := "/* scatter_plot call */"; type := SCALAR;
             is_temporary := true |},
          emitted [line 1 "// Generating function call: scatter_plot()";
                   line 1 "c_scatter_plot(v.data, v.size, w.data, w.size);"]
            started).
Proof.
  refine (proj2 (proj2
            (scatter_plot_call_checked example_table 3
               {| Symtab.name := "scatter_plot"; Symtab.type := SCALAR;
                  Symtab.value := Symtab.scalar_value 0%float |}
               [Some (NODE_TYPE_IDENTIFIER (Some 1));
                Some (NODE_TYPE_IDENTIFIER (Some 2))]
               started
               (emitted [line 1 "// Generating function call: scatter_plot()"]
                  started)
               [{| code := "v"; type := VECTOR; is_temporary := true |};
                {| code := "w"; type := VECTOR; is_temporary := true |}]
               eq_refl eq_refl eq_refl))
            {| code := "v"; type := VECTOR; is_temporary := true |}
            {| code := "w"; type := VECTOR; is_temporary := true |}
            eq_refl eq_refl eq_refl).
Defined.

(** [scatter_plot(v)] and [scatter_plot(v, x)]: an error each, and no call
    of the plotting entry point. *)
Example scatter_plot_one_argument :
  generate_expression example_table
    (Some (NODE_TYPE_FUNC_CALL (Some 3)
             [Some (NODE_TYPE_IDENTIFIER (Some 1))]))
    started
  = Some ({| code := "/* invalid scatter_plot call */"; type := SCALAR;
             is_temporary := true |},
          reported "scatter_plot() expects 2 vector arguments."
            (emitted [line 1 "// Generating function call: scatter_plot()"]
               started)).
Proof. reflexivity. Qed.

Example scatter_plot_scalar_argument :
  generate_expression example_table
    (Some (NODE_TYPE_FUNC_CALL (Some 3)
             [Some (NODE_TYPE_IDENTIFIER (Some 1));
              Some (NODE_TYPE_IDENTIFIER (Some 0))]))
    started
  = Some ({| code := "/* invalid scatter_plot call */"; type := SCALAR;
             is_temporary := true |},
          reported "scatter_plot() expects 2 vector arguments."
            (emitted [line 1 "// Generating function call: scatter_plot()"]
               started)).
Proof. reflexivity. Qed.

(** ** Programs of scalar arithmetic *)

Lemma declare_symbols_eq (current : list Symtab.Symbol) :
  forall st, exists ls, declare_symbols current st = Some (tt, emitted ls st).
Proof.
  induction current as [| c next IH]; intros st; cbn [declare_symbols].
  - exists []. now rewrite emitted_nil.
  - assert (Hc : exists l,
               (match Symtab.type c with
                | SCALAR => emit 1 ("double " ++ Symtab.name c ++ " = 0.0;")
                | VECTOR =>
                    emit 1 ("Vector " ++ Symtab.name c ++ " = { NULL, 0 };")
                | _ =>
                    emit 1 ("// WARNING: Undefined symbol type for "
                            ++ Symtab.name c)
                end) st = Some (tt, emitted [l] st)).
    { destruct (Symtab.type c); eexists; apply emit_eq. }
    destruct Hc as (l & Hc). rewrite (bind_ok _ _ _ _ _ Hc).
    destruct (IH (emitted [l] st)) as (ls & Hls). rewrite Hls.
    exists (l :: ls). rewrite emitted_emitted. reflexivity.
Qed.

Lemma declare_temps_eq (n : nat) :
  forall (i : Z) (st : State),
    declare_temps i n st = Some (tt, emitted (pool_lines i n) st).
Proof.
  induction n as [| n IH]; intros i st; cbn [declare_temps pool_lines].
  - now rewrite emitted_nil.
  - rewrite (bind_ok _ _ _ _ _ (emit_eq _ _ _)).
    rewrite (bind_ok _ _ _ _ _ (emit_eq _ _ _)).
    rewrite IH, !emitted_emitted. reflexivity.
Qed.

Lemma pool_lines_vector (n : nat) :
  forall i j : Z,
    (i <= j < i + Z.of_nat n)%Z ->
    In (line 1 ("Vector _tv" ++ fmt_d j ++ " = { NULL, 0 };"))
       (pool_lines i n).
Proof.
  induction n as [| n IH]; intros i j Hj; [lia |].
  cbn [pool_lines]. destruct (Z.eq_dec i j) as [-> | Hne].
  - right. left. reflexivity.
  - right. right. apply IH. lia.
Qed.

(** The declarations always hold the pool of vector temporaries. *)
Lemma declare_variables_pool (tbl : Symtab.table) (st : State) :
  exists st',
    declare_variables tbl st = Some (tt, st') /\
    forall (written : list string) (i : Z),
      output_file st = Some written ->
      (0 <= i < 20)%Z ->
      exists written',
        output_file st' = Some written' /\
        In (line 1 ("Vector _tv" ++ fmt_d i ++ " = { NULL, 0 };")) written'.
Proof.
  unfold declare_variables.
  rewrite (bind_ok _ _ _ _ _ (emit_eq _ _ _)).
  destruct (declare_symbols_eq (Symtab.symbol_get_list_head tbl)
              (emitted [line 1 "// --- Variable Declarations ---"] st))
    as (ls & Hls).
  rewrite (bind_ok _ _ _ _ _ Hls).
  rewrite (bind_ok _ _ _ _ _ (emit_eq _ _ _)).
  rewrite (bind_ok _ _ _ _ _ (declare_temps_eq _ _ _)).
  rewrite (bind_ok _ _ _ _ _ (emit_eq _ _ _)).
  rewrite emit_eq, !emitted_emitted.
  eexists. split; [reflexivity |].
  intros written i Hopen Hi. unfold emitted. cbn [output_file].
  rewrite Hopen. cbn [option_map]. eexists. split; [reflexivity |].
  assert (Hpool : In (line 1 ("Vector _tv" ++ fmt_d i ++ " = { NULL, 0 };"))
                     (pool_lines 0 20)) by (apply pool_lines_vector; lia).
  repeat rewrite in_app_iff. tauto.
Qed.

Lemma binary_op_scalars (op : ascii) (left_res right_res : ExprResult)
    (st : State) :
  type left_res = SCALAR -> type right_res = SCALAR ->
  binary_op_dispatch op left_res right_res st
  = Some ({| code := snprintf 16 ("_ts" ++ fmt_d (temp_var_counter st));
             type := SCALAR; is_temporary := false |},
          emitted [line 1 (snprintf 16 ("_ts" ++ fmt_d (temp_var_counter st))
                           ++ " = (" ++ code left_res ++ ") " ++ fmt_c op
                           ++ " (" ++ code right_res ++ ");")]
            (bumped st)).
Proof.
  intros Hl Hr. unfold binary_op_dispatch, is_scalar. rewrite Hl, Hr.
  cbn [Symtab.SymbolType_eqb andb].
  destruct st as [[written |] c e se so]; reflexivity.
Qed.

Lemma scalar_run_child (tbl : Symtab.table) (c : option ASTNode) :
  at_child (fun node =>
              scalar_only tbl node = true ->
              scalar_run (generate_expression tbl (Some node))) c ->
  match c with
  | None => true
  | Some n => scalar_only tbl n
  end = true ->
  scalar_run (generate_expression tbl c).
Proof.
  destruct c as [n |]; cbn [at_child].
  - auto.
  - intros _ _ st. exists null_expr_result, st.
    split; [reflexivity |]. split; [reflexivity |]. discriminate.
Qed.

Lemma scalar_arguments (tbl : Symtab.table)
    (items : list (option ASTNode)) :
  Forall (at_child (fun node =>
                      scalar_only tbl node = true ->
                      scalar_run (generate_expression tbl (Some node))))
         items ->
  forallb (fun c => match c with
                    | None => true
                    | Some n => scalar_only tbl n
                    end) items = true ->
  forall st, exists rs st',
    arguments_loop (generate_expression tbl) items st = Some (rs, st').
Proof.
  induction 1 as [| item rest Hitem _ IH]; cbn [forallb arguments_loop].
  - intros _ st. exists [], st. reflexivity.
  - intros Hall st. apply andb_true_iff in Hall. destruct Hall as [Hi Hrest].
    destruct (scalar_run_child tbl item Hitem Hi st) as (r & st1 & Hr & _).
    rewrite (bind_ok _ _ _ _ _ Hr).
    destruct (IH Hrest st1) as (rs & st2 & Hrs).
    rewrite (bind_ok _ _ _ _ _ Hrs). exists (r :: rs), st2. reflexivity.
Qed.

Lemma scalar_only_run (tbl : Symtab.table) (node : ASTNode) :
  scalar_only tbl node = true ->
  scalar_run (generate_expression tbl (Some node)).
Proof.
  induction node using ASTNode_induction; try discriminate.
  - (* number *)
    intros _ st. eexists. eexists. split; [reflexivity |].
    split; [reflexivity |]. discriminate.
  - (* identifier *)
    destruct sym as [h |]; [| discriminate]. cbn [scalar_only].
    destruct (Symtab.deref tbl h) as [s |] eqn:Hd; [| discriminate].
    intros Hk st. apply SymbolType_eqb_eq in Hk.
    exists {| code := Symtab.name s; type := Symtab.type s;
              is_temporary := true |}, st.
    split; [| split; [exact Hk | discriminate]].
    cbn. unfold bind. cbn. rewrite Hd. reflexivity.
  - (* binary operation *)
    cbn [scalar_only]. intros Hboth st.
    apply andb_true_iff in Hboth. destruct Hboth as [Hl Hr].
    destruct (scalar_run_child tbl l H Hl st) as (lr & st1 & Hlr & Hlk & _).
    destruct (scalar_run_child tbl r H0 Hr st1) as (rr & st2 & Hrr & Hrk & _).
    rewrite generate_expression_binary_op.
    rewrite (bind_ok _ _ _ _ _ Hlr), (bind_ok _ _ _ _ _ Hrr).
    rewrite (binary_op_scalars op lr rr st2 Hlk Hrk).
    eexists. eexists. split; [reflexivity |]. split; [reflexivity |].
    intros _. eexists. reflexivity.
  - (* unary operation *)
    cbn [scalar_only]. intros Hx st.
    destruct (scalar_run_child tbl x H Hx st) as (xr & st1 & Hxr & Hxk & _).
    rewrite generate_expression_unary_op, (bind_ok _ _ _ _ _ Hxr).
    unfold unary_op_dispatch, is_scalar. rewrite Hxk.
    cbn [Symtab.SymbolType_eqb andb].
    destruct (Ascii.eqb op "-").
    + rewrite (bind_ok _ _ _ _ _ (new_temp_scalar_var_eq _)).
      rewrite (bind_ok _ _ _ _ _ (emit_eq _ _ _)).
      eexists. eexists. split; [reflexivity |]. split; [reflexivity |].
      intros _. eexists. reflexivity.
    + rewrite (bind_ok _ _ _ _ _ (report_eq _ _)).
      eexists. eexists. split; [reflexivity |]. split; [reflexivity |].
      discriminate.
  - (* call *)
    destruct sym as [h |]; [| discriminate]. cbn [scalar_only].
    destruct (Symtab.deref tbl h) as [f |] eqn:Hd; [| discriminate].
    intros Hcall st. apply andb_true_iff in Hcall.
    destruct Hcall as [Hname Hargs]. apply negb_true_iff in Hname.
    rewrite generate_expression_func_call.
    assert (Hf : symbol_of tbl (Some h) st = Some (f, st)).
    { cbn. rewrite Hd. reflexivity. }
    rewrite (bind_ok _ _ _ _ _ Hf), (bind_ok _ _ _ _ _ (emit_eq _ _ _)).
    rewrite Hname.
    destruct (scalar_arguments tbl items H Hargs
                (emitted [line 1 ("// Generating function call: "
                                  ++ Symtab.name f ++ "()")] st))
      as (rs & st1 & Hrs).
    rewrite (bind_ok _ _ _ _ _ Hrs).
    destruct (streq (Symtab.name f) "scatter_plot").
    + unfold scatter_plot_call. destruct (two_vectors rs).
      * rewrite (bind_ok _ _ _ _ _ (emit_eq _ _ _)).
        eexists. eexists. split; [reflexivity |]. split; [reflexivity |].
        discriminate.
      * rewrite (bind_ok _ _ _ _ _ (report_eq _ _)).
        eexists. eexists. split; [reflexivity |]. split; [reflexivity |].
        discriminate.
    + unfold generic_call.
      rewrite (bind_ok _ _ _ _ _ (new_temp_scalar_var_eq _)).
      rewrite (bind_ok _ _ _ _ _ (emit_eq _ _ _)).
      eexists. eexists. split; [reflexivity |]. split; [reflexivity |].
      intros _. eexists. reflexivity.
Qed.

(** C4, as the code has it.  An expression of scalar arithmetic only is
    translated to the end, resolves to Scalar, and where its result names a
    declared temporary that is a scalar one, [_ts<k>]: no vector temporary
    comes out of it.  The declarations, whatever the program, hold the
    fixed pool: each of [_tv0] to [_tv19] is declared as a [Vector]. *)
Theorem scalar_arithmetic_uses_no_vector_temporary (tbl : Symtab.table)
    (node : ASTNode) :
  scalar_only tbl node = true ->
  (forall st, exists r st',
     generate_expression tbl (Some node) st = Some (r, st') /\
     type r = SCALAR /\
     (is_temporary r = false ->
      exists k, code r = snprintf 16 ("_ts" ++ fmt_d k))) /\
  (forall st, exists st',
     declare_variables tbl st = Some (tt, st') /\
     forall (written : list string) (i : Z),
       output_file st = Some written ->
       (0 <= i < 20)%Z ->
       exists written',
         output_file st' = Some written' /\
         In (line 1 ("Vector _tv" ++ fmt_d i ++ " = { NULL, 0 };"))
            written').
Proof.
  intros Hscalar. split.
  - exact (scalar_only_run tbl node Hscalar).
  - intros st. apply declare_variables_pool.
Qed.

Lemma scalar_arithmetic_uses_no_vector_temporary_witness :
  (forall st, exists r st',
     generate_expression scalar_table (Some expr_scalar_sum) st
     = Some (r, st') /\
     type r = SCALAR /\
     (is_temporary r = false ->
      exists k, code r = snprintf 16 ("_ts" ++ fmt_d k))) /\
  (forall st, exists st',
     declare_variables scalar_table st = Some (tt, st') /\
     forall (written : list string) (i : Z),
       output_file st = Some written ->
       (0 <= i < 20)%Z ->
       exists written',
         output_file st' = Some written' /\
         In (line 1 ("Vector _tv" ++ fmt_d i ++ " = { NULL, 0 };"))
            written').
Proof.
  apply (scalar_arithmetic_uses_no_vector_temporary scalar_table
           expr_scalar_sum).
  reflexivity.
Defined.

(** C4, as stated, fails on [{ x = x + 1.0; }]: the file generated for it
    declares the vector temporary [_tv0]. *)
Lemma scalar_program_declares_vector_temporary :
  exists written st',
    generate_code scalar_table env_zero (Some scalar_program) "output.c"
      started
    = Some (Some written, st') /\
    codegen_error_occurred st' = false /\
    In (line 1 "Vector _tv0 = { NULL, 0 };") written.
Proof.
  evaluate_run. eexists. eexists. split; [reflexivity |].
  split; [reflexivity |].
  apply written_line. vm_compute. reflexivity.
Qed.

(** ** What the output depends on *)

Lemma agree_refl (st : State) : agree st st.
Proof. repeat split. Qed.

Lemma uniform_ret {A} (a : A) : uniform (ret a).
Proof. intros st st' H. cbn. auto. Qed.

Lemma uniform_bind {A B} (m : M A) (k : A -> M B) :
  uniform m -> (forall a, uniform (k a)) -> uniform (bind m k).
Proof.
  intros Hm Hk st st' Hagree. unfold bind. specialize (Hm st st' Hagree).
  unfold alike in Hm.
  destruct (m st) as [[a s] |], (m st') as [[a' s'] |]; try contradiction.
  - destruct Hm as [<- Hs]. now apply Hk.
  - exact I.
Qed.

Lemma uniform_abort {A} : uniform (@abort A).
Proof. intros st st' _. exact I. Qed.

Lemma uniform_get_output_file : uniform (get output_file).
Proof. intros st st' H. cbn. split; [apply H | exact H]. Qed.

Lemma uniform_get_counter : uniform (get temp_var_counter).
Proof. intros st st' H. cbn. split; [apply H | exact H]. Qed.

Lemma uniform_get_flag : uniform (get codegen_error_occurred).
Proof. intros st st' H. cbn. split; [apply H | exact H]. Qed.

Lemma uniform_set_output_file (f : option (list string)) :
  uniform (set_output_file f).
Proof. intros st st' (_ & Hc & He). cbn. unfold agree. cbn. auto. Qed.

Lemma uniform_set_counter (c : Z) : uniform (set_counter c).
Proof. intros st st' (Hf & _ & He). cbn. unfold agree. cbn. auto. Qed.

Lemma uniform_set_error_flag (b : bool) : uniform (set_error_flag b).
Proof. intros st st' (Hf & Hc & _). cbn. unfold agree. cbn. auto. Qed.

Lemma uniform_fprintf_stderr (text : string) : uniform (fprintf_stderr text).
Proof. intros st st' H. cbn. split; [reflexivity | exact H]. Qed.

Lemma uniform_printf (text : string) : uniform (printf text).
Proof. intros st st' H. cbn. split; [reflexivity | exact H]. Qed.

Lemma uniform_report (message : string) :
  uniform (report_codegen_error message).
Proof.
  apply uniform_bind; [apply uniform_fprintf_stderr |].
  intros _. apply uniform_set_error_flag.
Qed.

Lemma uniform_emit (i : nat) (text : string) : uniform (emit i text).
Proof.
  apply uniform_bind; [apply uniform_get_output_file |].
  intros [written |]; [apply uniform_set_output_file | apply uniform_ret].
Qed.

Lemma uniform_emit_all (calls : list (nat * string)) :
  uniform (emit_all calls).
Proof.
  induction calls as [| [i text] rest IH]; cbn [emit_all].
  - apply uniform_ret.
  - apply uniform_bind; [apply uniform_emit | intros _; exact IH].
Qed.

Lemma uniform_new_temp_scalar_var : uniform new_temp_scalar_var.
Proof.
  apply uniform_bind; [apply uniform_get_counter | intros c].
  apply uniform_bind; [apply uniform_set_counter | intros _].
  apply uniform_ret.
Qed.

Lemma uniform_new_temp_vector_var : uniform new_temp_vector_var.
Proof.
  apply uniform_bind; [apply uniform_get_counter | intros c].
  apply uniform_bind; [apply uniform_set_counter | intros _].
  apply uniform_ret.
Qed.

Lemma uniform_symbol_of (tbl : Symtab.table) (sym : option Symtab.handle) :
  uniform (symbol_of tbl sym).
Proof.
  destruct sym as [h |]; cbn; [| apply uniform_abort].
  destruct (Symtab.deref tbl h); [apply uniform_ret | apply uniform_abort].
Qed.

Create HintDb uniform.

#[local] Hint Resolve uniform_ret uniform_abort uniform_get_output_file
  uniform_get_counter uniform_get_flag uniform_set_output_file
  uniform_set_counter uniform_set_error_flag uniform_fprintf_stderr
  uniform_printf uniform_report uniform_emit uniform_emit_all
  uniform_new_temp_scalar_var uniform_new_temp_vector_var
  uniform_symbol_of : uniform.

(** Walks a computation built from binds and tests down to its leaves. *)
Ltac uniform_walk :=
  repeat first
    [ progress auto with uniform
    | apply uniform_bind; [| intros ?]
    | match goal with
      | |- uniform (if ?b then _ else _) => destruct b
      | |- uniform (match ?x with _ => _ end) => destruct x
      end ].

Lemma uniform_binary_op_dispatch (op : ascii) (l r : ExprResult) :
  uniform (binary_op_dispatch op l r).
Proof. unfold binary_op_dispatch. uniform_walk. Qed.

Lemma uniform_unary_op_dispatch (op : ascii) (l : ExprResult) :
  uniform (unary_op_dispatch op l).
Proof. unfold unary_op_dispatch. uniform_walk. Qed.

Lemma uniform_read_vector_call (n : nat) : uniform (read_vector_call n).
Proof. unfold read_vector_call. uniform_walk. Qed.

Lemma uniform_scatter_plot_call (rs : list ExprResult) :
  uniform (scatter_plot_call rs).
Proof. unfold scatter_plot_call. uniform_walk. Qed.

Lemma uniform_generic_call (f : string) (rs : list ExprResult) :
  uniform (generic_call f rs).
Proof. unfold generic_call. uniform_walk. Qed.

#[local] Hint Resolve uniform_binary_op_dispatch uniform_unary_op_dispatch
  uniform_read_vector_call uniform_scatter_plot_call uniform_generic_call
  : uniform.

Lemma uniform_vector_elements_loop (gen : option ASTNode -> M ExprResult)
    (items : list (option ASTNode)) :
  Forall (fun c => uniform (gen c)) items ->
  uniform (vector_elements_loop gen items).
Proof.
  induction 1 as [| item rest Hitem _ IH]; cbn [vector_elements_loop];
    uniform_walk.
Qed.

Lemma uniform_arguments_loop (gen : option ASTNode -> M ExprResult)
    (items : list (option ASTNode)) :
  Forall (fun c => uniform (gen c)) items ->
  uniform (arguments_loop gen items).
Proof.
  induction 1 as [| item rest Hitem _ IH]; cbn [arguments_loop];
    uniform_walk.
Qed.

Lemma uniform_statements_loop (gen : option ASTNode -> M unit)
    (items : list (option ASTNode)) :
  Forall (fun c => uniform (gen c)) items ->
  uniform (statements_loop gen items).
Proof.
  induction 1 as [| item rest Hitem _ IH]; cbn [statements_loop];
    uniform_walk.
Qed.

Section Uniform.

Variable tbl : Symtab.table.

Lemma uniform_expression_child (c : option ASTNode) :
  at_child (fun node => uniform (generate_expression tbl (Some node))) c ->
  uniform (generate_expression tbl c).
Proof. destruct c; cbn [at_child]; [auto | intros _; apply uniform_ret]. Qed.

Lemma uniform_expression_children (items : list (option ASTNode)) :
  Forall (at_child (fun node =>
                      uniform (generate_expression tbl (Some node)))) items ->
  Forall (fun c => uniform (generate_expression tbl c)) items.
Proof.
  intros H. eapply Forall_impl; [| exact H].
  intros c. apply uniform_expression_child.
Qed.

Lemma uniform_generate_expression (node : option ASTNode) :
  uniform (generate_expression tbl node).
Proof.
  apply uniform_expression_child. destruct node as [n |]; [| exact I].
  cbn [at_child].
  induction n using ASTNode_induction;
    try (cbn; solve [uniform_walk]).
  - (* vector literal *)
    rewrite generate_expression_vector.
    pose proof (uniform_vector_elements_loop _ _
                  (uniform_expression_children _ H)).
    uniform_walk.
  - (* binary operation *)
    rewrite generate_expression_binary_op.
    pose proof (uniform_expression_child _ H).
    pose proof (uniform_expression_child _ H0).
    uniform_walk.
  - (* unary operation *)
    rewrite generate_expression_unary_op.
    pose proof (uniform_expression_child _ H).
    uniform_walk.
  - (* call *)
    rewrite generate_expression_func_call.
    pose proof (uniform_arguments_loop _ _
                  (uniform_expression_children _ H)).
    uniform_walk.
Qed.

Lemma uniform_assignment_check (target : Symtab.Symbol) (r : ExprResult) :
  uniform (assignment_check target r).
Proof. unfold assignment_check. uniform_walk. Qed.

Lemma uniform_value_is_discarded (node : ASTNode) :
  uniform (value_is_discarded tbl node).
Proof. destruct node; cbn; uniform_walk. Qed.

Lemma uniform_statement_child (c : option ASTNode) :
  at_child (fun node => uniform (generate_statement tbl (Some node))) c ->
  uniform (generate_statement tbl c).
Proof. destruct c; cbn [at_child]; [auto | intros _; apply uniform_ret]. Qed.

Lemma uniform_generate_statement (node : option ASTNode) :
  uniform (generate_statement tbl node).
Proof.
  apply uniform_statement_child. destruct node as [n |]; [| exact I].
  cbn [at_child].
  pose proof uniform_generate_expression as Hexpr.
  pose proof uniform_assignment_check as Hcheck.
  pose proof uniform_value_is_discarded as Hdiscard.
  induction n using ASTNode_induction.
  all: try (pose proof (uniform_statement_child _ H));
       try (pose proof (uniform_statement_child _ H0));
       try (pose proof (uniform_statement_child _ H1)).
  all: match goal with
       | |- uniform (generate_statement _ (Some ?n)) =>
           pose proof (generate_statement_other_eq tbl n) as Hother;
           cbv beta iota in Hother
       end.
  all: first [ rewrite generate_statement_list_eq
             | rewrite generate_statement_assignment_eq
             | rewrite generate_statement_if_eq
             | rewrite generate_statement_while_eq
             | rewrite Hother ];
       unfold unless_failed, expression_statement.
  all: try solve [ uniform_walk ].
  (* statement list *)
  assert (Hloop : uniform (statements_loop (generate_statement tbl) items)).
  { apply uniform_statements_loop. eapply Forall_impl; [| exact H].
    intros c. apply uniform_statement_child. }
  uniform_walk.
Qed.

Lemma uniform_declare_symbols (current : list Symtab.Symbol) :
  uniform (declare_symbols current).
Proof.
  induction current as [| c next IH]; cbn [declare_symbols]; uniform_walk.
Qed.

Lemma uniform_declare_temps (n : nat) :
  forall i, uniform (declare_temps i n).
Proof.
  induction n as [| n IH]; intros i; cbn [declare_temps]; uniform_walk.
Qed.

Lemma uniform_cleanup_symbols (current : list Symtab.Symbol) :
  uniform (cleanup_symbols current).
Proof.
  induction current as [| c next IH]; cbn [cleanup_symbols]; uniform_walk.
Qed.

Lemma uniform_cleanup_temps (n : nat) :
  forall i, uniform (cleanup_temps i n).
Proof.
  induction n as [| n IH]; intros i; cbn [cleanup_temps]; uniform_walk.
Qed.

Lemma uniform_declare_variables : uniform (declare_variables tbl).
Proof.
  pose proof uniform_declare_symbols. pose proof uniform_declare_temps.
  unfold declare_variables. uniform_walk.
Qed.

Lemma uniform_generate_cleanup_code : uniform (generate_cleanup_code tbl).
Proof.
  pose proof uniform_cleanup_symbols. pose proof uniform_cleanup_temps.
  unfold generate_cleanup_code. uniform_walk.
Qed.

(** Given what the environment supplies, the file [generate_code] writes is
    a function of the AST and the symbol table alone: whatever an earlier
    run left in the counter, the flag and the streams, the counter and the
    flag being reset before anything is emitted. *)
Lemma generate_code_forgets_earlier_runs (env : Env)
    (ast_root : option ASTNode) (output_filename : string)
    (st st' : State) :
  alike (fun _ _ => True)
    (generate_code tbl env ast_root output_filename st)
    (generate_code tbl env ast_root output_filename st').
Proof.
  assert (Hweaken : forall (A : Type) (r r' : option (A * State)),
             alike agree r r' -> alike (fun _ _ => True) r r').
  { intros A [[a s] |] [[a' s'] |]; cbn; tauto. }
  assert (Hnone : forall text,
             alike (fun _ _ => True)
               ((fprintf_stderr text ;; ret (@None (list string))) st)
               ((fprintf_stderr text ;; ret (@None (list string))) st')).
  { intros text. cbn. auto. }
  unfold generate_code.
  destruct ast_root as [[] |]; try apply Hnone.
  destruct (fopen_ok env); [| apply Hnone].
  rewrite (bind_ok _ _ st _ tt eq_refl), (bind_ok _ _ st' _ tt eq_refl).
  rewrite (bind_ok _ _ _ _ tt eq_refl), (bind_ok _ _ _ _ tt eq_refl).
  rewrite (bind_ok _ _ _ _ tt eq_refl), (bind_ok _ _ _ _ tt eq_refl).
  apply Hweaken.
  pose proof uniform_declare_variables.
  pose proof uniform_generate_cleanup_code.
  pose proof uniform_generate_statement.
  match goal with
  | |- alike agree (?m ?s) (?m' ?s') =>
      change (alike agree (m s) (m s'));
      assert (Hm : uniform m) by (unfold generate_runtime_helpers;
                                  uniform_walk);
      apply Hm
  end.
  repeat split.
Qed.

End Uniform.

(** C7 on the empty program and the empty table: two runs that differ only
    in what [vfprintf] reads for the conversions the runtime helpers pass
    no argument for write files that differ. *)
Theorem generate_code_output_not_determined :
  exists w0 w1 st0 st1,
    generate_code [] env_zero (Some (NODE_TYPE_STATEMENT_LIST [])) "output.c"
      started
    = Some (Some w0, st0) /\
    generate_code [] env_one (Some (NODE_TYPE_STATEMENT_LIST [])) "output.c"
      started
    = Some (Some w1, st1) /\
    file_text w0 <> file_text w1.
Proof.
  set (r0 := generate_code [] env_zero _ _ _). vm_compute in r0. subst r0.
  set (r1 := generate_code [] env_one _ _ _). vm_compute in r1. subst r1.
  do 4 eexists. split; [reflexivity |]. split; [reflexivity |].
  intros H. apply String.eqb_eq in H. vm_compute in H. discriminate H.
Qed.

End CodegenFacts.

(* ------------------------------------------------------------------ *)
(** * Further properties of the symbol table *)
(* ------------------------------------------------------------------ *)

Module SymtabMore.

Import Symtab SymtabInvariants SymtabFacts.

Lemma lookup_from_names (tbl tbl' : table) (nm : string) :
  map name tbl' = map name tbl -> lookup_from tbl' nm = lookup_from tbl nm.
Proof.
  revert tbl'. induction tbl as [| c rest IH]; intros [| c' rest'];
    cbn [map lookup_from]; try discriminate; [reflexivity |].
  intros [= Hname Hrest]. rewrite Hname, (IH _ Hrest).
  assert (Hlen : List.length rest' = List.length rest).
  { rewrite <- (length_map name rest'), Hrest. apply length_map. }
  rewrite Hlen. reflexivity.
Qed.

Lemma store_names (tbl : table) (h : handle) (c s : Symbol) :
  deref tbl h = Some c -> name s = name c ->
  map name (store tbl h s) = map name tbl.
Proof.
  induction tbl as [| c0 rest IH]; cbn [store map]; [reflexivity |].
  rewrite deref_cons. destruct (h =? List.length rest).
  - intros [= ->] Hname. cbn [map]. now rewrite Hname.
  - intros Hd Hname. cbn [map]. now rewrite IH.
Qed.

Lemma store_Forall (P : Symbol -> Prop) (tbl : table) (h : handle)
    (s : Symbol) :
  Forall P tbl -> P s -> Forall P (store tbl h s).
Proof.
  intros Hall Hs. induction Hall as [| c rest Hc Hrest IH]; cbn [store].
  - constructor.
  - destruct (h =? List.length rest); constructor; assumption.
Qed.

Lemma free_symbol_value_data_name (c : Symbol) :
  name (free_symbol_value_data c) = name c.
Proof.
  unfold free_symbol_value_data. destruct (type c); try reflexivity.
  destruct (value c) as [v | [buf |] n]; reflexivity.
Qed.

(** What became of the cell a setter was given. *)
Lemma symbol_set_scalar_inv (sym : option handle) (val : float)
    (tbl tbl' : table) :
  symbol_set_scalar sym val tbl = Some tbl' ->
  tbl' = tbl \/
  exists h c, deref tbl h = Some c /\
              tbl' = store tbl h {| name := name c;
                                    type := SYMBOL_TYPE_SCALAR;
                                    value := scalar_value val |}.
Proof.
  unfold symbol_set_scalar. destruct sym as [h |]; [| intros [= <-]; now left].
  destruct (deref tbl h) as [c |] eqn:Hd; [| discriminate].
  intros [= <-]. right. exists h, c. split; [exact Hd |].
  now rewrite free_symbol_value_data_name.
Qed.

Lemma symbol_set_vector_inv (sym : option handle)
    (data : option (list float)) (size : nat) (tbl tbl' : table) :
  symbol_set_vector sym data size tbl = Some tbl' ->
  tbl' = tbl \/
  exists h c d, deref tbl h = Some c /\
                tbl' = store tbl h {| name := name c;
                                      type := SYMBOL_TYPE_VECTOR;
                                      value := vector_value d size |} /\
                (d = None \/
                 exists buf, data = Some buf /\ d = Some (firstn size buf)
                             /\ 0 < size <= List.length buf).
Proof.
  unfold symbol_set_vector. destruct sym as [h |]; [| intros [= <-]; now left].
  destruct (deref tbl h) as [c |] eqn:Hd; [| discriminate].
  rewrite free_symbol_value_data_name. intros Hset. right. exists h, c.
  destruct size as [| n].
  - injection Hset as <-. exists None. auto.
  - destruct data as [buf |].
    + destruct (Nat.leb_spec (S n) (List.length buf)); [| discriminate].
      injection Hset as <-. exists (Some (firstn (S n) buf)).
      split; [exact Hd |]. split; [reflexivity |]. right. exists buf.
      repeat split; [lia | assumption].
    + injection Hset as <-. exists None. auto.
Qed.

(** X1.  What [symbol_insert] returns is what [symbol_lookup] finds: after
    the insertion of a name, on any table, the lookup of that name gives
    the handle returned, and the cell behind it carries the name. *)
Theorem symbol_lookup_after_insert (nm : string) (tbl : table) :
  exists (h : handle) (tbl1 : table) (c : Symbol),
    symbol_insert (Some nm) tbl = Some (h, tbl1) /\
    symbol_lookup (Some nm) tbl1 = Some h /\
    deref tbl1 h = Some c /\ name c = nm.
Proof.
  unfold symbol_insert, symbol_lookup.
  destruct (lookup_from tbl nm) as [h |] eqn:Hl.
  - destruct (lookup_from_found _ _ _ Hl) as (c & Hd & Hn).
    exists h, tbl, c. auto.
  - exists (List.length tbl), (fresh_symbol nm :: tbl), (fresh_symbol nm).
    split; [reflexivity |]. split.
    + cbn [lookup_from fresh_symbol name]. unfold Libc.streq.
      now rewrite String.eqb_refl.
    + rewrite deref_cons, Nat.eqb_refl. auto.
Qed.

(** X2.  An insertion disturbs nothing: every handle valid before it still
    points at the same cell, and the lookup of every other name gives what
    it gave before. *)
Theorem symbol_insert_keeps_others (nm : string) (tbl tbl1 : table)
    (h : handle) :
  symbol_insert (Some nm) tbl = Some (h, tbl1) ->
  (forall h' c, deref tbl h' = Some c -> deref tbl1 h' = Some c) /\
  (forall nm', nm' <> nm ->
     symbol_lookup (Some nm') tbl1 = symbol_lookup (Some nm') tbl).
Proof.
  unfold symbol_insert, symbol_lookup.
  destruct (lookup_from tbl nm) as [h0 |] eqn:Hl; intros [= <- <-].
  - auto.
  - split.
    + intros h' c Hd. rewrite deref_cons.
      pose proof (deref_bound _ _ _ Hd).
      destruct (Nat.eqb_spec h' (List.length tbl)); [lia | exact Hd].
    + intros nm' Hne. cbn [lookup_from fresh_symbol name].
      unfold Libc.streq.
      destruct (String.eqb_spec nm nm'); [congruence | reflexivity].
Qed.

Lemma symbol_insert_keeps_others_witness :
  (forall h' c, deref [fresh_symbol "y"] h' = Some c ->
                deref [fresh_symbol "x"; fresh_symbol "y"] h' = Some c) /\
  (forall nm', nm' <> "x" ->
     symbol_lookup (Some nm') [fresh_symbol "x"; fresh_symbol "y"]
     = symbol_lookup (Some nm') [fresh_symbol "y"]).
Proof.
  apply (symbol_insert_keeps_others "x" [fresh_symbol "y"]
           [fresh_symbol "x"; fresh_symbol "y"] 1).
  reflexivity.
Defined.

(** X3.  [symbol_lookup] is exact: a NULL name finds nothing; a name finds
    nothing exactly when no cell carries it; and a handle it returns points
    at a cell of that name, with no cell of that name inserted after it. *)
Theorem symbol_lookup_exact (nm : string) (tbl : table) :
  symbol_lookup None tbl = None /\
  (symbol_lookup (Some nm) tbl = None <-> ~ In nm (map name tbl)) /\
  (forall h, symbol_lookup (Some nm) tbl = Some h ->
     (exists c, deref tbl h = Some c /\ name c = nm) /\
     (forall h' c', h < h' -> deref tbl h' = Some c' -> name c' <> nm)).
Proof.
  split; [reflexivity |]. split; [apply lookup_from_none |].
  intros h Hl. split; [now apply lookup_from_found |].
  cbn [symbol_lookup] in Hl. revert h Hl.
  induction tbl as [| c rest IH]; cbn [lookup_from]; [discriminate |].
  unfold Libc.streq. intros h Hl h' c' Hlt.
  rewrite deref_cons.
  destruct (String.eqb_spec (name c) nm) as [Heq | Hne].
  - injection Hl as <-. intros Hd.
    destruct (Nat.eqb_spec h' (List.length rest)); [lia |].
    apply deref_bound in Hd. lia.
  - destruct (Nat.eqb_spec h' (List.length rest)).
    + intros [= <-]. exact Hne.
    + now apply (IH h Hl).
Qed.

(** X4.  [symbol_set_scalar] on a valid handle, whatever the cell held:
    the cell becomes a Scalar of the value given under the same name, and
    no other cell changes. *)
Theorem symbol_set_scalar_stores (tbl : table) (h : handle) (c : Symbol)
    (val : float) :
  deref tbl h = Some c ->
  exists tbl',
    symbol_set_scalar (Some h) val tbl = Some tbl' /\
    deref tbl' h = Some {| name := name c; type := SYMBOL_TYPE_SCALAR;
                           value := scalar_value val |} /\
    (forall h', h' <> h -> deref tbl' h' = deref tbl h').
Proof.
  intros Hd. unfold symbol_set_scalar. rewrite Hd.
  rewrite free_symbol_value_data_name. eexists. split; [reflexivity |].
  split.
  - apply deref_store_same. eapply deref_bound; eassumption.
  - intros h' Hne. now apply deref_store_other.
Qed.

Lemma symbol_set_scalar_stores_witness :
  exists tbl',
    symbol_set_scalar (Some 0) 2%float
      [{| name := "v"; type := SYMBOL_TYPE_VECTOR;
          value := vector_value (Some [1%float]) 1 |}] = Some tbl' /\
    deref tbl' 0 = Some {| name := "v"; type := SYMBOL_TYPE_SCALAR;
                           value := scalar_value 2%float |} /\
    (forall h', h' <> 0 ->
       deref tbl' h'
       = deref [{| name := "v"; type := SYMBOL_TYPE_VECTOR;
                   value := vector_value (Some [1%float]) 1 |}] h').
Proof.
  apply (symbol_set_scalar_stores
           [{| name := "v"; type := SYMBOL_TYPE_VECTOR;
               value := vector_value (Some [1%float]) 1 |}] 0
           {| name := "v"; type := SYMBOL_TYPE_VECTOR;
              value := vector_value (Some [1%float]) 1 |} 2%float).
  reflexivity.
Defined.

(** X5.  [symbol_set_vector] with data: on a valid handle, a positive
    length and a buffer of at least that many elements, the cell becomes a
    Vector that owns a copy of the first [size] elements, under the same
    name, and no other cell changes. *)
Theorem symbol_set_vector_copies (tbl : table) (h : handle) (c : Symbol)
    (buf : list float) (size : nat) :
  deref tbl h = Some c ->
  0 < size <= List.length buf ->
  exists tbl',
    symbol_set_vector (Some h) (Some buf) size tbl = Some tbl' /\
    deref tbl' h = Some {| name := name c; type := SYMBOL_TYPE_VECTOR;
                           value := vector_value (Some (firstn size buf))
                                      size |} /\
    (forall h', h' <> h -> deref tbl' h' = deref tbl h').
Proof.
  intros Hd [Hpos Hfit]. unfold symbol_set_vector. rewrite Hd.
  rewrite free_symbol_value_data_name.
  destruct size as [| n]; [lia |].
  destruct (Nat.leb_spec (S n) (List.length buf)); [| lia].
  eexists. split; [reflexivity |]. split.
  - apply deref_store_same. eapply deref_bound; eassumption.
  - intros h' Hne. now apply deref_store_other.
Qed.

Lemma symbol_set_vector_copies_witness :
  exists tbl',
    symbol_set_vector (Some 0) (Some [1%float; 2%float; 3%float]) 2
      [fresh_symbol "v"] = Some tbl' /\
    deref tbl' 0
    = Some {| name := "v"; type := SYMBOL_TYPE_VECTOR;
              value := vector_value (Some (firstn 2 [1%float; 2%float;
                                                     3%float])) 2 |} /\
    (forall h', h' <> 0 -> deref tbl' h' = deref [fresh_symbol "v"] h').
Proof.
  apply (symbol_set_vector_copies [fresh_symbol "v"] 0 (fresh_symbol "v")
           [1%float; 2%float; 3%float] 2).
  - reflexivity.
  - cbn. lia.
Defined.

(** X6.  The setters never rename: after [symbol_set_scalar] or
    [symbol_set_vector] the table carries the same names in the same
    order, so every lookup gives the handle it gave before and the names
    stay distinct. *)
Theorem setters_keep_names (sym : option handle) (tbl tbl' : table) :
  (exists val, symbol_set_scalar sym val tbl = Some tbl')
  \/ (exists data size, symbol_set_vector sym data size tbl = Some tbl') ->
  map name tbl' = map name tbl /\
  (forall nm, symbol_lookup nm tbl' = symbol_lookup nm tbl) /\
  (distinct_names tbl -> distinct_names tbl').
Proof.
  intros Hset.
  assert (Hnames : map name tbl' = map name tbl).
  { destruct Hset as [(val & Hs) | (data & size & Hs)].
    - destruct (symbol_set_scalar_inv _ _ _ _ Hs)
        as [-> | (h & c & Hd & ->)]; [reflexivity |].
      now apply (store_names tbl h c).
    - destruct (symbol_set_vector_inv _ _ _ _ _ Hs)
        as [-> | (h & c & d & Hd & -> & _)]; [reflexivity |].
      now apply (store_names tbl h c). }
  split; [exact Hnames |]. split.
  - intros [nm |]; [| reflexivity]. now apply lookup_from_names.
  - unfold distinct_names. now rewrite Hnames.
Qed.

Lemma setters_keep_names_witness :
  map name [{| name := "x"; type := SYMBOL_TYPE_SCALAR;
               value := scalar_value 7%float |}]
  = map name [fresh_symbol "x"] /\
  (forall nm,
     symbol_lookup nm [{| name := "x"; type := SYMBOL_TYPE_SCALAR;
                          value := scalar_value 7%float |}]
     = symbol_lookup nm [fresh_symbol "x"]) /\
  (distinct_names [fresh_symbol "x"] ->
   distinct_names [{| name := "x"; type := SYMBOL_TYPE_SCALAR;
                      value := scalar_value 7%float |}]).
Proof.
  apply (setters_keep_names (Some 0) [fresh_symbol "x"]
           [{| name := "x"; type := SYMBOL_TYPE_SCALAR;
               value := scalar_value 7%float |}]).
  left. exists 7%float. reflexivity.
Defined.

(** X7.  The three operations keep every cell consistent: the payload is
    the arm of the cell's kind, and a vector's buffer, where there is one,
    holds exactly [size] elements with [size] positive. *)
Theorem operations_keep_cells_consistent (tbl : table) :
  Forall consistent tbl ->
  (forall nm h tbl1,
     symbol_insert (Some nm) tbl = Some (h, tbl1) ->
     Forall consistent tbl1) /\
  (forall sym val tbl1,
     symbol_set_scalar sym val tbl = Some tbl1 -> Forall consistent tbl1) /\
  (forall sym data size tbl1,
     symbol_set_vector sym data size tbl = Some tbl1 ->
     Forall consistent tbl1).
Proof.
  intros Hall. split; [| split].
  - intros nm h tbl1. unfold symbol_insert, symbol_lookup.
    destruct (lookup_from tbl nm); intros [= <- <-]; [exact Hall |].
    constructor; [exact I | exact Hall].
  - intros sym val tbl1 Hs.
    destruct (symbol_set_scalar_inv _ _ _ _ Hs)
      as [-> | (h & c & Hd & ->)]; [exact Hall |].
    apply store_Forall; [exact Hall | exact I].
  - intros sym data size tbl1 Hs.
    destruct (symbol_set_vector_inv _ _ _ _ _ Hs)
      as [-> | (h & c & d & Hd & -> & Hdata)]; [exact Hall |].
    apply store_Forall; [exact Hall |].
    unfold consistent. cbn [type value].
    destruct Hdata as [-> | (buf & _ & -> & Hpos & Hfit)]; [exact I |].
    split; [| exact Hpos]. rewrite length_firstn. lia.
Qed.

Lemma operations_keep_cells_consistent_witness :
  (forall nm h tbl1,
     symbol_insert (Some nm) [fresh_symbol "x"] = Some (h, tbl1) ->
     Forall consistent tbl1) /\
  (forall sym val tbl1,
     symbol_set_scalar sym val [fresh_symbol "x"] = Some tbl1 ->
     Forall consistent tbl1) /\
  (forall sym data size tbl1,
     symbol_set_vector sym data size [fresh_symbol "x"] = Some tbl1 ->
     Forall consistent tbl1).
Proof.
  apply (operations_keep_cells_consistent [fresh_symbol "x"]).
  constructor; [exact I | constructor].
Defined.

End SymtabMore.

(* ------------------------------------------------------------------ *)
(** * Properties of the tree builders *)
(* ------------------------------------------------------------------ *)

Module AstFacts.

Import Ast AstBuild.

Lemma ensure_list_capacity_room (list : NodeList) :
  within_capacity list ->
  count (ensure_list_capacity list) < capacity (ensure_list_capacity list)
  /\ items (ensure_list_capacity list) = items list
  /\ capacity (ensure_list_capacity list)
     <= Nat.max INITIAL_LIST_CAPACITY (2 * S (count list)).
Proof.
  unfold within_capacity, ensure_list_capacity, count, INITIAL_LIST_CAPACITY.
  intros [Hfit Hbound].
  destruct (Nat.leb_spec (capacity list) (List.length (items list)))
    as [Hfull | Hroom]; cbn [items capacity].
  - destruct (Nat.eqb_spec (capacity list) 0) as [Hzero | Hpos];
      repeat split; try reflexivity; lia.
  - repeat split; try reflexivity; lia.
Qed.

Lemma push_within_capacity (list : NodeList) (item : ASTNode) :
  within_capacity list -> within_capacity (push list item).
Proof.
  intros Hin. destruct (ensure_list_capacity_room list Hin) as (Hroom & Hitems & Hcap).
  unfold within_capacity, push, count in *. cbn [items capacity].
  rewrite Hitems in *. rewrite length_app. cbn [List.length]. lia.
Qed.

(** X8.  Appending to a list whose items fit its array: once
    [ensure_list_capacity] has run there is room for one more item, so the
    store at index [count] falls inside the array; the items already there
    are kept in order with the new one after them; and the array stays
    within the first size or twice the items. *)
Theorem push_stays_in_bounds (list : NodeList) (item : ASTNode) :
  within_capacity list ->
  count (ensure_list_capacity list) < capacity (ensure_list_capacity list)
  /\ items (push list item) = (items list ++ [Some item])%list
  /\ within_capacity (push list item).
Proof.
  intros Hin. destruct (ensure_list_capacity_room list Hin) as (Hroom & Hitems & _).
  split; [exact Hroom |]. split.
  - unfold push. cbn [items]. now rewrite Hitems.
  - now apply push_within_capacity.
Qed.

Lemma push_stays_in_bounds_witness :
  count (ensure_list_capacity empty_list)
  < capacity (ensure_list_capacity empty_list)
  /\ items (push empty_list NODE_TYPE_UNKNOWN)
     = (items empty_list ++ [Some NODE_TYPE_UNKNOWN])%list
  /\ within_capacity (push empty_list NODE_TYPE_UNKNOWN).
Proof.
  apply (push_stays_in_bounds empty_list NODE_TYPE_UNKNOWN).
  unfold within_capacity. cbn. lia.
Defined.

Lemma add_arguments_from (nodes : list (option ASTNode)) :
  forall list,
    within_capacity list ->
    exists list',
      fold_left ast_add_argument nodes (Some list) = Some list' /\
      items list' = (items list ++ non_null nodes)%list /\
      within_capacity list'.
Proof.
  induction nodes as [| node rest IH]; intros list Hin; cbn [fold_left non_null filter].
  - exists list. rewrite app_nil_r. auto.
  - destruct node as [a |]; cbn [ast_add_argument].
    + destruct (IH (push list a) (push_within_capacity list a Hin))
        as (list' & Hfold & Hitems & Hin').
      exists list'. split; [exact Hfold |]. split; [| exact Hin'].
      rewrite Hitems.
      destruct (ensure_list_capacity_room list Hin) as (_ & Hkeep & _).
      unfold push. cbn [items]. rewrite Hkeep, <- app_assoc. reflexivity.
    + apply IH. exact Hin.
Qed.

(** X9.  An argument list built from an empty [NodeList] by
    [ast_add_argument]: it holds the non-NULL arguments, each once, in the
    order they were added (a NULL argument is dropped), and its items fit
    its array. *)
Theorem arguments_kept_in_order (nodes : list (option ASTNode)) :
  exists list,
    fold_left ast_add_argument nodes (Some empty_list) = Some list /\
    items list = non_null nodes /\
    within_capacity list.
Proof.
  assert (Hempty : within_capacity empty_list).
  { unfold within_capacity. cbn. lia. }
  destruct (add_arguments_from nodes empty_list Hempty)
    as (list & Hfold & Hitems & Hin).
  exists list. auto.
Qed.

Lemma add_statements_from (nodes : list (option ASTNode)) :
  forall statements,
    fold_left ast_add_statement nodes
      (Some (NODE_TYPE_STATEMENT_LIST statements))
    = Some (NODE_TYPE_STATEMENT_LIST (statements ++ non_null nodes)%list).
Proof.
  induction nodes as [| node rest IH]; intros statements;
    cbn [fold_left non_null filter].
  - now rewrite app_nil_r.
  - destruct node as [s |]; cbn [ast_add_statement].
    + rewrite IH, <- app_assoc. reflexivity.
    + apply IH.
Qed.

Lemma add_elements_from (nodes : list (option ASTNode)) :
  forall elements,
    fold_left ast_add_vector_element nodes
      (Some (NODE_TYPE_VECTOR elements))
    = Some (NODE_TYPE_VECTOR (elements ++ non_null nodes)%list).
Proof.
  induction nodes as [| node rest IH]; intros elements;
    cbn [fold_left non_null filter].
  - now rewrite app_nil_r.
  - destruct node as [e |]; cbn [ast_add_vector_element].
    + rewrite IH, <- app_assoc. reflexivity.
    + apply IH.
Qed.

(** X10.  Statement lists and vector literals grow in insertion order: a
    fresh statement list (vector literal) to which a sequence of nodes is
    added one by one holds exactly the non-NULL nodes of the sequence, in
    the same order; and adding statements to a vector literal, or elements
    to a statement list, changes nothing. *)
Theorem nodes_kept_in_insertion_order (nodes : list (option ASTNode)) :
  fold_left ast_add_statement nodes (Some ast_new_statement_list)
  = Some (NODE_TYPE_STATEMENT_LIST (non_null nodes))
  /\ fold_left ast_add_vector_element nodes (Some ast_new_vector)
     = Some (NODE_TYPE_VECTOR (non_null nodes))
  /\ fold_left ast_add_statement nodes (Some ast_new_vector)
     = Some ast_new_vector
  /\ fold_left ast_add_vector_element nodes (Some ast_new_statement_list)
     = Some ast_new_statement_list.
Proof.
  split; [apply (add_statements_from nodes []) |].
  split; [apply (add_elements_from nodes []) |].
  split; induction nodes as [| [n |] rest IH]; cbn; auto.
Qed.

End AstFacts.

(* ------------------------------------------------------------------ *)
(** * Properties of the plotting runtime *)
(* ------------------------------------------------------------------ *)

Module RuntimeVizFacts.

Import Libc RuntimeViz.


(** X11.  [c_scatter_plot] refuses bad input before it touches anything:
    with a NULL buffer, lengths that differ, length 0, or a data file that
    does not open, it returns without writing [plot_data.txt] and without
    running gnuplot, and it reads no element of either buffer. *)
Theorem c_scatter_plot_refuses (env : VizEnv)
    (x_data y_data : option (list float)) (x_size y_size : nat) :
  x_data = None \/ y_data = None \/ x_size <> y_size \/ x_size = 0
  \/ data_file_opens env = false ->
  exists effects,
    c_scatter_plot env x_data x_size y_data y_size = Some effects /\
    plot_data_txt effects = None /\
    commands effects = [].
Proof.
  intros Hbad. unfold c_scatter_plot.
  destruct x_data as [xs |]; [| eexists; repeat split].
  destruct y_data as [ys |]; [| eexists; repeat split].
  destruct (Nat.eqb_spec x_size y_size) as [Hsame | Hdiff]; cbn [negb];
    [| eexists; repeat split].
  destruct (Nat.eqb_spec x_size 0) as [Hzero | Hpos]; [eexists; repeat split |].
  destruct (data_file_opens env); cbn [negb]; [| eexists; repeat split].
  destruct Hbad as [H | [H | [H | [H | H]]]];
    try discriminate; contradiction.
Qed.

Lemma c_scatter_plot_refuses_witness :
  exists effects,
    c_scatter_plot
      {| data_file_opens := true; perror_text := EmptyString;
         system_status := 0 |}
      (Some [1%float]) 1 (Some [1%float; 2%float]) 2 = Some effects /\
    plot_data_txt effects = None /\
    commands effects = [].
Proof.
  apply (c_scatter_plot_refuses
           {| data_file_opens := true; perror_text := EmptyString;
              system_status := 0 |}
           (Some [1%float]) (Some [1%float; 2%float]) 1 2).
  right. right. left. discriminate.
Defined.



End RuntimeVizFacts.

(* ------------------------------------------------------------------ *)
(** * Further properties of the code generator *)
(* ------------------------------------------------------------------ *)

Module CodegenMore.

Import Libc Ast Codegen CodegenInvariants CodegenFacts.

(** ** What a translation may do to the statics *)

Lemma extends_refl (st : State) : extends st st.
Proof.
  unfold extends. split; [lia |]. split; [auto |]. split.
  - exists []. destruct (output_file st); cbn; [now rewrite app_nil_r | auto].
  - split; [| reflexivity]. exists []. rewrite app_nil_r. split; congruence.
Qed.

Lemma extends_trans (st1 st2 st3 : State) :
  extends st1 st2 -> extends st2 st3 -> extends st1 st3.
Proof.
  intros (Hc1 & Hf1 & (l1 & Ho1) & (m1 & He1 & Hm1) & Hs1)
         (Hc2 & Hf2 & (l2 & Ho2) & (m2 & He2 & Hm2) & Hs2).
  unfold extends. split; [lia |]. split; [auto |]. split; [| split].
  - exists (l1 ++ l2)%list. rewrite Ho2, Ho1.
    destruct (output_file st1); cbn; [now rewrite app_assoc | reflexivity].
  - exists (m1 ++ m2)%list. split.
    + rewrite He2, He1. now rewrite app_assoc.
    + intros Hsome. destruct m2 as [| m m2'].
      * rewrite app_nil_r in Hsome. auto.
      * apply Hm2. discriminate.
  - congruence.
Qed.

Lemma extends_emitted (lines : list string) (st : State) :
  extends st (emitted lines st).
Proof.
  unfold extends, emitted. cbn. split; [lia |]. split; [auto |]. split.
  - exists lines. reflexivity.
  - split; [| reflexivity]. exists []. rewrite app_nil_r. split; congruence.
Qed.

Lemma extends_reported (message : string) (st : State) :
  extends st (reported message st).
Proof.
  unfold extends, reported. cbn. split; [lia |]. split; [auto |]. split.
  - exists []. destruct (output_file st); cbn; [now rewrite app_nil_r | auto].
  - split; [| reflexivity]. eexists. split; [reflexivity | auto].
Qed.

Lemma extends_bumped (st : State) : extends st (bumped st).
Proof.
  unfold extends, bumped. cbn. split; [lia |]. split; [auto |]. split.
  - exists []. destruct (output_file st); cbn; [now rewrite app_nil_r | auto].
  - split; [| reflexivity]. exists []. rewrite app_nil_r. split; congruence.
Qed.

Lemma orderly_ret {A} (a : A) : orderly (ret a).
Proof. intros st a' st' [= _ <-]. apply extends_refl. Qed.

Lemma orderly_abort {A} : orderly (@abort A).
Proof. intros st a st'. discriminate. Qed.

Lemma orderly_bind {A B} (m : M A) (k : A -> M B) :
  orderly m -> (forall a, orderly (k a)) -> orderly (bind m k).
Proof.
  intros Hm Hk st b st'. unfold bind.
  destruct (m st) as [[a st1] |] eqn:Hrun; [| discriminate].
  intros Hrest. eapply extends_trans; [eapply Hm | eapply Hk]; eassumption.
Qed.

Lemma orderly_get {A} (field : State -> A) : orderly (get field).
Proof. intros st a st' [= _ <-]. apply extends_refl. Qed.

Lemma orderly_emit (i : nat) (text : string) : orderly (emit i text).
Proof.
  intros st a st'. rewrite emit_eq. intros [= _ <-]. apply extends_emitted.
Qed.

Lemma orderly_report (message : string) :
  orderly (report_codegen_error message).
Proof.
  intros st a st'. rewrite report_eq. intros [= _ <-]. apply extends_reported.
Qed.

Lemma orderly_new_temp_scalar_var : orderly new_temp_scalar_var.
Proof.
  intros st a st'. rewrite new_temp_scalar_var_eq. intros [= _ <-].
  apply extends_bumped.
Qed.

Lemma orderly_new_temp_vector_var : orderly new_temp_vector_var.
Proof.
  intros st a st'. rewrite new_temp_vector_var_eq. intros [= _ <-].
  apply extends_bumped.
Qed.

Lemma orderly_symbol_of (tbl : Symtab.table) (sym : option Symtab.handle) :
  orderly (symbol_of tbl sym).
Proof.
  destruct sym as [h |]; cbn; [| apply orderly_abort].
  destruct (Symtab.deref tbl h); [apply orderly_ret | apply orderly_abort].
Qed.

Create HintDb orderly.

#[local] Hint Resolve orderly_ret orderly_abort orderly_get orderly_emit
  orderly_report orderly_new_temp_scalar_var orderly_new_temp_vector_var
  orderly_symbol_of : orderly.

Ltac orderly_walk :=
  repeat first
    [ progress auto with orderly
    | apply orderly_bind; [| intros ?]
    | match goal with
      | |- orderly (if ?b then _ else _) => destruct b
      | |- orderly (match ?x with _ => _ end) => destruct x
      end ].

Lemma orderly_binary_op_dispatch (op : ascii) (l r : ExprResult) :
  orderly (binary_op_dispatch op l r).
Proof. unfold binary_op_dispatch. orderly_walk. Qed.

Lemma orderly_unary_op_dispatch (op : ascii) (l : ExprResult) :
  orderly (unary_op_dispatch op l).
Proof. unfold unary_op_dispatch. orderly_walk. Qed.

Lemma orderly_read_vector_call (n : nat) : orderly (read_vector_call n).
Proof. unfold read_vector_call. orderly_walk. Qed.

Lemma orderly_scatter_plot_call (rs : list ExprResult) :
  orderly (scatter_plot_call rs).
Proof. unfold scatter_plot_call. orderly_walk. Qed.

Lemma orderly_generic_call (f : string) (rs : list ExprResult) :
  orderly (generic_call f rs).
Proof. unfold generic_call. orderly_walk. Qed.

#[local] Hint Resolve orderly_binary_op_dispatch orderly_unary_op_dispatch
  orderly_read_vector_call orderly_scatter_plot_call orderly_generic_call
  : orderly.

Lemma orderly_vector_elements_loop (gen : option ASTNode -> M ExprResult)
    (items : list (option ASTNode)) :
  Forall (fun c => orderly (gen c)) items ->
  orderly (vector_elements_loop gen items).
Proof.
  induction 1 as [| item rest Hitem _ IH]; cbn [vector_elements_loop];
    orderly_walk.
Qed.

Lemma orderly_arguments_loop (gen : option ASTNode -> M ExprResult)
    (items : list (option ASTNode)) :
  Forall (fun c => orderly (gen c)) items ->
  orderly (arguments_loop gen items).
Proof.
  induction 1 as [| item rest Hitem _ IH]; cbn [arguments_loop];
    orderly_walk.
Qed.

Lemma orderly_statements_loop (gen : option ASTNode -> M unit)
    (items : list (option ASTNode)) :
  Forall (fun c => orderly (gen c)) items ->
  orderly (statements_loop gen items).
Proof.
  induction 1 as [| item rest Hitem _ IH]; cbn [statements_loop];
    orderly_walk.
Qed.

Section Orderly.

Variable tbl : Symtab.table.

Lemma orderly_expression_child (c : option ASTNode) :
  at_child (fun node => orderly (generate_expression tbl (Some node))) c ->
  orderly (generate_expression tbl c).
Proof. destruct c; cbn [at_child]; [auto | intros _; apply orderly_ret]. Qed.

Lemma orderly_expression_children (items : list (option ASTNode)) :
  Forall (at_child (fun node =>
                      orderly (generate_expression tbl (Some node)))) items ->
  Forall (fun c => orderly (generate_expression tbl c)) items.
Proof.
  intros H. eapply Forall_impl; [| exact H].
  intros c. apply orderly_expression_child.
Qed.

Lemma orderly_generate_expression (node : option ASTNode) :
  orderly (generate_expression tbl node).
Proof.
  apply orderly_expression_child. destruct node as [n |]; [| exact I].
  cbn [at_child].
  induction n using ASTNode_induction;
    try (cbn; solve [orderly_walk]).
  - rewrite generate_expression_vector.
    pose proof (orderly_vector_elements_loop _ _
                  (orderly_expression_children _ H)).
    orderly_walk.
  - rewrite generate_expression_binary_op.
    pose proof (orderly_expression_child _ H).
    pose proof (orderly_expression_child _ H0).
    orderly_walk.
  - rewrite generate_expression_unary_op.
    pose proof (orderly_expression_child _ H).
    orderly_walk.
  - rewrite generate_expression_func_call.
    pose proof (orderly_arguments_loop _ _
                  (orderly_expression_children _ H)).
    orderly_walk.
Qed.

Lemma orderly_assignment_check (target : Symtab.Symbol) (r : ExprResult) :
  orderly (assignment_check target r).
Proof. unfold assignment_check. orderly_walk. Qed.

Lemma orderly_value_is_discarded (node : ASTNode) :
  orderly (value_is_discarded tbl node).
Proof. destruct node; cbn; orderly_walk. Qed.

Lemma orderly_statement_child (c : option ASTNode) :
  at_child (fun node => orderly (generate_statement tbl (Some node))) c ->
  orderly (generate_statement tbl c).
Proof. destruct c; cbn [at_child]; [auto | intros _; apply orderly_ret]. Qed.

Lemma orderly_generate_statement (node : option ASTNode) :
  orderly (generate_statement tbl node).
Proof.
  apply orderly_statement_child. destruct node as [n |]; [| exact I].
  cbn [at_child].
  pose proof orderly_generate_expression as Hexpr.
  pose proof orderly_assignment_check as Hcheck.
  pose proof orderly_value_is_discarded as Hdiscard.
  induction n using ASTNode_induction.
  all: try (pose proof (orderly_statement_child _ H));
       try (pose proof (orderly_statement_child _ H0));
       try (pose proof (orderly_statement_child _ H1)).
  all: match goal with
       | |- orderly (generate_statement _ (Some ?n)) =>
           pose proof (generate_statement_other_eq tbl n) as Hother;
           cbv beta iota in Hother
       end.
  all: first [ rewrite generate_statement_list_eq
             | rewrite generate_statement_assignment_eq
             | rewrite generate_statement_if_eq
             | rewrite generate_statement_while_eq
             | rewrite Hother ];
       unfold unless_failed, expression_statement.
  all: try solve [ orderly_walk ].
  assert (Hloop : orderly (statements_loop (generate_statement tbl) items)).
  { apply orderly_statements_loop. eapply Forall_impl; [| exact H].
    intros c. apply orderly_statement_child. }
  orderly_walk.
Qed.

End Orderly.

(** X13.  Translating an expression is orderly, whatever the tree: the
    counter of temporaries never goes down, an error flag that was set
    stays set, the open file only gains lines after those it held (and a
    closed file stays closed), [stderr] only gains messages, and gains one
    only if the flag ends up set; [stdout] is left alone. *)
Theorem generate_expression_extends (tbl : Symtab.table)
    (node : option ASTNode) (st st' : State) (r : ExprResult) :
  generate_expression tbl node st = Some (r, st') ->
  extends st st'.
Proof. apply orderly_generate_expression. Qed.

Lemma generate_expression_extends_witness :
  extends started (emitted [line 1 "_tv0 = vector_add_scalar(v, 5.000000);"]
                     (bumped started)).
Proof.
  apply (generate_expression_extends example_table
           (Some expr_scalar_plus_vector) started
           (emitted [line 1 "_tv0 = vector_add_scalar(v, 5.000000);"]
              (bumped started))
           {| code := "_tv0"; type := VECTOR; is_temporary := false |}).
  reflexivity.
Defined.

(** X14.  Translating a statement is orderly in the same sense: output
    already written is never taken back, the counter never goes down, the
    flag is never cleared, and a diagnostic on [stderr] always comes with
    the flag set, so a pass that ends with the flag clear has reported
    nothing. *)
Theorem generate_statement_extends (tbl : Symtab.table)
    (node : option ASTNode) (st st' : State) :
  generate_statement tbl node st = Some (tt, st') ->
  extends st st' /\
  (codegen_error_occurred st' = false -> stderr st' = stderr st).
Proof.
  intros Hrun.
  pose proof (orderly_generate_statement tbl node st tt st' Hrun) as Hext.
  split; [exact Hext |].
  destruct Hext as (_ & _ & _ & (messages & Herr & Hflag) & _).
  intros Hclear. destruct messages as [| m rest].
  - now rewrite app_nil_r in Herr.
  - rewrite Hflag in Hclear; discriminate.
Qed.

Lemma generate_statement_extends_witness :
  extends started
    (emitted [line 1 "// Assignment to x (Type: 1)";
              line 1 "// RHS Type: 1";
              line 1 "x = 5.000000;"] started) /\
  (codegen_error_occurred
     (emitted [line 1 "// Assignment to x (Type: 1)";
               line 1 "// RHS Type: 1";
               line 1 "x = 5.000000;"] started) = false ->
   stderr (emitted [line 1 "// Assignment to x (Type: 1)";
                    line 1 "// RHS Type: 1";
                    line 1 "x = 5.000000;"] started)
   = stderr started).
Proof.
  apply (generate_statement_extends example_table
           (Some (NODE_TYPE_ASSIGNMENT (Some 0)
                    (Some (NODE_TYPE_NUMBER 5%float))))
           started).
  reflexivity.
Defined.

(** ** Runs that do not end the process *)

Lemma safe_ret {A} (a : A) : safe (ret a).
Proof. intros st. discriminate. Qed.

Lemma safe_bind {A B} (m : M A) (k : A -> M B) :
  safe m -> (forall a, safe (k a)) -> safe (bind m k).
Proof.
  intros Hm Hk st. unfold bind. specialize (Hm st).
  destruct (m st) as [[a st1] |]; [apply Hk | contradiction].
Qed.

Lemma safe_get {A} (field : State -> A) : safe (get field).
Proof. intros st. discriminate. Qed.

Lemma safe_emit (i : nat) (text : string) : safe (emit i text).
Proof. intros st. rewrite emit_eq. discriminate. Qed.

Lemma safe_report (message : string) : safe (report_codegen_error message).
Proof. intros st. rewrite report_eq. discriminate. Qed.

Lemma safe_new_temp_scalar_var : safe new_temp_scalar_var.
Proof. intros st. rewrite new_temp_scalar_var_eq. discriminate. Qed.

Lemma safe_new_temp_vector_var : safe new_temp_vector_var.
Proof. intros st. rewrite new_temp_vector_var_eq. discriminate. Qed.

Lemma safe_symbol_of (tbl : Symtab.table) (sym : option Symtab.handle) :
  known tbl sym = true -> safe (symbol_of tbl sym).
Proof.
  unfold known, symbol_of. destruct sym as [h |]; [| discriminate].
  destruct (Symtab.deref tbl h); [intros _; apply safe_ret | discriminate].
Qed.

Lemma safe_emit_all (calls : list (nat * string)) : safe (emit_all calls).
Proof.
  induction calls as [| [i text] rest IH]; cbn [emit_all];
    [apply safe_ret |].
  apply safe_bind; [apply safe_emit | intros _; exact IH].
Qed.

Lemma orderly_emit_all (calls : list (nat * string)) :
  orderly (emit_all calls).
Proof.
  induction calls as [| [i text] rest IH]; cbn [emit_all];
    [apply orderly_ret |].
  apply orderly_bind; [apply orderly_emit | intros _; exact IH].
Qed.

Create HintDb safe.

#[local] Hint Resolve safe_ret safe_get safe_emit safe_report safe_emit_all
  safe_new_temp_scalar_var safe_new_temp_vector_var safe_symbol_of : safe.

Ltac safe_walk :=
  repeat first
    [ progress auto with safe
    | apply safe_bind; [| intros ?]
    | match goal with
      | |- safe (if ?b then _ else _) => destruct b
      | |- safe (match ?x with _ => _ end) => destruct x
      end ].

Lemma safe_binary_op_dispatch (op : ascii) (l r : ExprResult) :
  safe (binary_op_dispatch op l r).
Proof. unfold binary_op_dispatch. safe_walk. Qed.

Lemma safe_unary_op_dispatch (op : ascii) (l : ExprResult) :
  safe (unary_op_dispatch op l).
Proof. unfold unary_op_dispatch. safe_walk. Qed.

Lemma safe_read_vector_call (n : nat) : safe (read_vector_call n).
Proof. unfold read_vector_call. safe_walk. Qed.

Lemma safe_scatter_plot_call (rs : list ExprResult) :
  safe (scatter_plot_call rs).
Proof. unfold scatter_plot_call. safe_walk. Qed.

Lemma safe_generic_call (f : string) (rs : list ExprResult) :
  safe (generic_call f rs).
Proof. unfold generic_call. safe_walk. Qed.

#[local] Hint Resolve safe_binary_op_dispatch safe_unary_op_dispatch
  safe_read_vector_call safe_scatter_plot_call safe_generic_call : safe.

Lemma safe_vector_elements_loop (gen : option ASTNode -> M ExprResult)
    (items : list (option ASTNode)) :
  Forall (fun c => safe (gen c)) items ->
  safe (vector_elements_loop gen items).
Proof.
  induction 1 as [| item rest Hitem _ IH]; cbn [vector_elements_loop];
    safe_walk.
Qed.

Lemma safe_arguments_loop (gen : option ASTNode -> M ExprResult)
    (items : list (option ASTNode)) :
  Forall (fun c => safe (gen c)) items ->
  safe (arguments_loop gen items).
Proof.
  induction 1 as [| item rest Hitem _ IH]; cbn [arguments_loop]; safe_walk.
Qed.

Lemma safe_statements_loop (gen : option ASTNode -> M unit)
    (items : list (option ASTNode)) :
  Forall (fun c => safe (gen c)) items ->
  safe (statements_loop gen items).
Proof.
  induction 1 as [| item rest Hitem _ IH]; cbn [statements_loop]; safe_walk.
Qed.

Section Safe.

Variable tbl : Symtab.table.

(** Validity of a child pointer. *)
Let valid_child (c : option ASTNode) : bool :=
  match c with
  | None => true
  | Some n => symbols_valid tbl n
  end.

Lemma safe_children (P : ASTNode -> Prop) (run : option ASTNode -> Prop)
    (items : list (option ASTNode)) :
  (forall c, at_child (fun n => symbols_valid tbl n = true -> P n) c ->
             valid_child c = true -> run c) ->
  Forall (at_child (fun n => symbols_valid tbl n = true -> P n)) items ->
  forallb valid_child items = true ->
  Forall run items.
Proof.
  intros Hstep Hall. induction Hall as [| c rest Hc _ IH]; cbn [forallb].
  - constructor.
  - intros Hv. apply andb_true_iff in Hv. destruct Hv as [Hv Hrest].
    constructor; [now apply Hstep | now apply IH].
Qed.

Lemma safe_expression_child (c : option ASTNode) :
  at_child (fun n => symbols_valid tbl n = true ->
                     safe (generate_expression tbl (Some n))) c ->
  valid_child c = true ->
  safe (generate_expression tbl c).
Proof.
  destruct c as [n |]; cbn [at_child valid_child];
    [auto | intros _ _; apply safe_ret].
Qed.

Lemma safe_generate_expression_at (node : ASTNode) :
  symbols_valid tbl node = true ->
  safe (generate_expression tbl (Some node)).
Proof.
  induction node using ASTNode_induction; cbn [symbols_valid];
    fold valid_child; intros Hvalid.
  all: try (cbn; solve [safe_walk]).
  - (* vector literal *)
    rewrite generate_expression_vector.
    pose proof (safe_vector_elements_loop _ _
                  (safe_children _ _ items safe_expression_child H Hvalid)).
    safe_walk.
  - (* binary operation *)
    apply andb_true_iff in Hvalid. destruct Hvalid as [Hl Hr].
    rewrite generate_expression_binary_op.
    pose proof (safe_expression_child l H Hl).
    pose proof (safe_expression_child r H0 Hr).
    safe_walk.
  - (* unary operation *)
    rewrite generate_expression_unary_op.
    pose proof (safe_expression_child x H Hvalid).
    safe_walk.
  - (* call *)
    apply andb_true_iff in Hvalid. destruct Hvalid as [Hsym Hargs].
    rewrite generate_expression_func_call.
    pose proof (safe_symbol_of tbl sym Hsym).
    pose proof (safe_arguments_loop _ _
                  (safe_children _ _ items safe_expression_child H Hargs)).
    safe_walk.
Qed.

Lemma safe_generate_expression (c : option ASTNode) :
  valid_child c = true -> safe (generate_expression tbl c).
Proof.
  destruct c as [n |]; cbn [valid_child];
    [apply safe_generate_expression_at | intros _; apply safe_ret].
Qed.

Lemma safe_assignment_check (target : Symtab.Symbol) (r : ExprResult) :
  safe (assignment_check target r).
Proof. unfold assignment_check. safe_walk. Qed.

Lemma safe_statement_child (c : option ASTNode) :
  at_child (fun n => symbols_valid tbl n = true ->
                     safe (generate_statement tbl (Some n))) c ->
  valid_child c = true ->
  safe (generate_statement tbl c).
Proof.
  destruct c as [n |]; cbn [at_child valid_child];
    [auto | intros _ _; apply safe_ret].
Qed.

Lemma safe_expression_statement (node : ASTNode) :
  symbols_valid tbl node = true ->
  safe (expression_statement tbl node).
Proof.
  intros Hvalid. unfold expression_statement.
  pose proof (safe_generate_expression_at node Hvalid).
  assert (Hdiscard : safe (value_is_discarded tbl node)).
  { destruct node; cbn; try apply safe_ret.
    cbn [symbols_valid] in Hvalid. apply andb_true_iff in Hvalid.
    pose proof (safe_symbol_of tbl function_symbol (proj1 Hvalid)).
    safe_walk. }
  safe_walk.
Qed.

Lemma safe_generate_statement_at (node : ASTNode) :
  symbols_valid tbl node = true ->
  safe (generate_statement tbl (Some node)).
Proof.
  pose proof safe_assignment_check as Hcheck.
  induction node using ASTNode_induction; intros Hvalid.
  all: match goal with
       | |- safe (generate_statement _ (Some ?n)) =>
           pose proof (generate_statement_other_eq tbl n) as Hother;
           cbv beta iota in Hother;
           try pose proof (safe_expression_statement n Hvalid)
       end.
  all: first [ rewrite generate_statement_list_eq
             | rewrite generate_statement_assignment_eq
             | rewrite generate_statement_if_eq
             | rewrite generate_statement_while_eq
             | rewrite Hother ];
       unfold unless_failed.
  all: cbn [symbols_valid] in Hvalid; fold valid_child in Hvalid.
  all: try solve [ safe_walk ].
  - (* assignment *)
    apply andb_true_iff in Hvalid. destruct Hvalid as [Hsym He].
    pose proof (safe_symbol_of tbl sym Hsym).
    pose proof (safe_generate_expression e He).
    safe_walk.
  - (* statement list *)
    pose proof (safe_statements_loop _ _
                  (safe_children _ _ items safe_statement_child H Hvalid)).
    safe_walk.
  - (* if *)
    apply andb_true_iff in Hvalid. destruct Hvalid as [Hvalid He].
    apply andb_true_iff in Hvalid. destruct Hvalid as [Hc Ht].
    pose proof (safe_generate_expression c Hc).
    pose proof (safe_statement_child t H0 Ht).
    pose proof (safe_statement_child e H1 He).
    safe_walk.
  - (* while *)
    apply andb_true_iff in Hvalid. destruct Hvalid as [Hc Hb].
    pose proof (safe_generate_expression c Hc).
    pose proof (safe_statement_child b H0 Hb).
    safe_walk.
Qed.

Lemma safe_declare_variables : safe (declare_variables tbl).
Proof.
  assert (Hsym : forall l, safe (declare_symbols l)).
  { induction l as [| c next IH]; cbn [declare_symbols]; safe_walk. }
  assert (Htemp : forall n i, safe (declare_temps i n)).
  { induction n as [| n IH]; intros i; cbn [declare_temps]; safe_walk. }
  unfold declare_variables. safe_walk.
Qed.

Lemma safe_generate_cleanup_code : safe (generate_cleanup_code tbl).
Proof.
  assert (Hsym : forall l, safe (cleanup_symbols l)).
  { induction l as [| c next IH]; cbn [cleanup_symbols]; safe_walk. }
  assert (Htemp : forall n i, safe (cleanup_temps i n)).
  { induction n as [| n IH]; intros i; cbn [cleanup_temps]; safe_walk. }
  unfold generate_cleanup_code. safe_walk.
Qed.

Lemma orderly_declare_variables : orderly (declare_variables tbl).
Proof.
  assert (Hsym : forall l, orderly (declare_symbols l)).
  { induction l as [| c next IH]; cbn [declare_symbols]; orderly_walk. }
  assert (Htemp : forall n i, orderly (declare_temps i n)).
  { induction n as [| n IH]; intros i; cbn [declare_temps]; orderly_walk. }
  unfold declare_variables. orderly_walk.
Qed.

Lemma orderly_generate_cleanup_code : orderly (generate_cleanup_code tbl).
Proof.
  assert (Hsym : forall l, orderly (cleanup_symbols l)).
  { induction l as [| c next IH]; cbn [cleanup_symbols]; orderly_walk. }
  assert (Htemp : forall n i, orderly (cleanup_temps i n)).
  { induction n as [| n IH]; intros i; cbn [cleanup_temps]; orderly_walk. }
  unfold generate_cleanup_code. orderly_walk.
Qed.

(** One step of a run that neither ends the process nor disturbs the
    statics. *)
Lemma advance {A} (m : M unit) (k : unit -> M A) (s : State)
    (target : State -> option (A * State)) :
  safe m -> orderly m ->
  (forall s', exists s1, extends s' s1 /\ k tt s' = target s1) ->
  exists s1, extends s s1 /\ bind m k s = target s1.
Proof.
  intros Hsafe Horderly Hrest. unfold bind. specialize (Hsafe s).
  destruct (m s) as [[[] s'] |] eqn:Hrun; [| contradiction].
  destruct (Hrest s') as (s1 & Hext & Hk). exists s1. split; [| exact Hk].
  eapply extends_trans; [eapply Horderly; exact Hrun | exact Hext].
Qed.

(** From the reset to the closing of the file. *)
Lemma generate_code_runs (env : Env) (items : list (option ASTNode))
    (output_filename : string) (st : State) :
  fopen_ok env = true ->
  symbols_valid tbl (NODE_TYPE_STATEMENT_LIST items) = true ->
  exists s1,
    extends (reset st) s1 /\
    generate_code tbl env (Some (NODE_TYPE_STATEMENT_LIST items))
      output_filename st
    = close_and_announce output_filename s1.
Proof.
  intros Hopen Hvalid. unfold generate_code. rewrite Hopen.
  rewrite (bind_ok _ _ st _ tt eq_refl).
  rewrite (bind_ok _ _ _ _ tt eq_refl).
  rewrite (bind_ok _ _ _ _ tt eq_refl).
  change {| output_file := Some []; temp_var_counter := 0;
            codegen_error_occurred := false;
            stderr := stderr st; stdout := stdout st |}
    with (reset st).
  pose proof (safe_generate_statement_at _ Hvalid) as Hsafe.
  pose proof (orderly_generate_statement tbl
                (Some (NODE_TYPE_STATEMENT_LIST items))) as Horderly.
  repeat (apply advance;
          [ first [ apply safe_emit_all | apply safe_emit
                  | apply safe_declare_variables
                  | apply safe_generate_cleanup_code
                  | exact Hsafe ]
          | first [ apply orderly_emit_all | apply orderly_emit
                  | apply orderly_declare_variables
                  | apply orderly_generate_cleanup_code
                  | exact Horderly ]
          | intros ? ]).
  eexists. split; [apply extends_refl | reflexivity].
Qed.

End Safe.

(** X15.  The asserts never fire on a tree whose symbols are in the table:
    if every identifier, assignment target and callee of a tree is a handle
    of the table, its translation as an expression and as a statement both
    run to the end, from any state of the statics. *)
Theorem valid_symbols_never_abort (tbl : Symtab.table) (node : ASTNode) :
  symbols_valid tbl node = true ->
  (forall st, generate_expression tbl (Some node) st <> None) /\
  (forall st, generate_statement tbl (Some node) st <> None).
Proof.
  intros Hvalid. split.
  - exact (safe_generate_expression_at tbl node Hvalid).
  - exact (safe_generate_statement_at tbl node Hvalid).
Qed.

Lemma valid_symbols_never_abort_witness :
  (forall st,
     generate_expression example_table (Some stmt_negate_vector) st <> None)
  /\ (forall st,
        generate_statement example_table (Some stmt_negate_vector) st
        <> None).
Proof.
  apply (valid_symbols_never_abort example_table stmt_negate_vector).
  reflexivity.
Defined.



(** X17.  [generate_code] on a statement list whose symbols are in the
    table, the output file opening: the run ends, the file written is
    closed, and the outcome is announced to match the flag.  With the flag
    clear, "Code generation complete" goes to [stdout] and nothing to
    [stderr]; with the flag set, nothing goes to [stdout] and [stderr] ends
    with the failure notice, after the diagnostics. *)
Theorem generate_code_announces (tbl : Symtab.table) (env : Env)
    (items : list (option ASTNode)) (output_filename : string)
    (st : State) :
  fopen_ok env = true ->
  symbols_valid tbl (NODE_TYPE_STATEMENT_LIST items) = true ->
  exists written st',
    generate_code tbl env (Some (NODE_TYPE_STATEMENT_LIST items))
      output_filename st
    = Some (Some written, st') /\
    output_file st' = None /\
    (codegen_error_occurred st' = false ->
     stdout st'
     = (stdout st
        ++ [("Code generation complete: " ++ output_filename ++ nl)%string])%list
     /\ stderr st' = stderr st) /\
    (codegen_error_occurred st' = true ->
     stdout st' = stdout st /\
     exists diagnostics,
       stderr st'
       = (stderr st ++ diagnostics
          ++ [("Code generation failed due to semantic errors. "
               ++ "Output file '" ++ output_filename
               ++ "' may be incomplete or incorrect." ++ nl)%string])%list).
Proof.
  intros Hopen Hvalid.
  destruct (generate_code_runs tbl env items output_filename st Hopen Hvalid)
    as (s1 & Hext & ->).
  destruct Hext as (_ & _ & (lines & Hfile) & (messages & Herr & Hflag) & Hout).
  cbn [reset output_file stderr stdout option_map] in Hfile, Herr, Hout.
  unfold close_and_announce.
  destruct s1 as [f c failed se so]. cbn in Hfile, Herr, Hflag, Hout.
  subst f se so. destruct failed.
  - eexists. eexists. split; [reflexivity |]. cbn.
    split; [reflexivity |]. split; [discriminate |].
    intros _. split; [reflexivity |]. exists messages.
    now rewrite <- app_assoc.
  - eexists. eexists. split; [reflexivity |]. cbn.
    split; [reflexivity |]. split; [| discriminate].
    intros _. split; [reflexivity |].
    destruct messages as [| m rest]; [now rewrite app_nil_r |].
    assert (Habsurd : false = true) by (apply Hflag; discriminate).
    discriminate.
Qed.

Lemma generate_code_announces_witness :
  exists written st',
    generate_code scalar_table env_zero
      (Some (NODE_TYPE_STATEMENT_LIST
               [Some (NODE_TYPE_ASSIGNMENT (Some 0) (Some expr_scalar_sum))]))
      "output.c" started
    = Some (Some written, st') /\
    output_file st' = None /\
    (codegen_error_occurred st' = false ->
     stdout st'
     = (stdout started
        ++ [("Code generation complete: " ++ "output.c" ++ nl)%string])%list
     /\ stderr st' = stderr started) /\
    (codegen_error_occurred st' = true ->
     stdout st' = stdout started /\
     exists diagnostics,
       stderr st'
       = (stderr started ++ diagnostics
          ++ [("Code generation failed due to semantic errors. "
               ++ "Output file '" ++ "output.c"
               ++ "' may be incomplete or incorrect." ++ nl)%string])%list).
Proof.
  apply (generate_code_announces scalar_table env_zero
           [Some (NODE_TYPE_ASSIGNMENT (Some 0) (Some expr_scalar_sum))]
           "output.c" started).
  - reflexivity.
  - reflexivity.
Defined.

End CodegenMore.
